(** * Roblox gamepass API wrappers: a shallow embedding of the route handlers

    The repository holds several generations of one small Express server:

    - [Api]        src/index.js:1-213, fetch based: /api/v1/check-ownership
                   and /api/v1/list-gamepasses, with isNaN validation and an
                   API-key check;
    - [Wrapper]    src/index.js:214-340, axios based:
                   /api/created-gamepasses/:userId (pagination loop) and
                   /api/owns/:userId/:gamePassId;
    - [WrapperEnv] src/index.js:341-455, the dotenv generation of the same two
                   routes, with a stricter item extraction;
    - [ApiRender]  src/index.js:456-578, the same two routes without the isNaN
                   validation;
    - [Keyless]    src/unnamed/part_001, the earliest fetch based generation,
                   without numeric validation and without an API key;
    - [Proxy]      src/unnamed/part_000, the generic /proxy?url= forwarder.

    Handlers are functions from the request and an upstream oracle to the
    reply they send and the trace of upstream calls they made; a fetch
    based handler may also throw before its [try], and then sends no
    reply.  They are taken from the point where Express calls them: the
    middleware in front of them (CORS, body parsing, request logging, rate
    limiting) and console output are not modelled. *)

From Stdlib Require Import String Ascii List ZArith Bool Lia Arith DecimalString.
From Stdlib Require Import Floats.SpecFloat.
Import ListNotations.
Open Scope string_scope.
Set Warnings "-register-all".

(** ** The fragment of JavaScript the handlers use *)
Module JS.

(** JavaScript values as they come out of [JSON.parse] or a property read.
    Numbers are IEEE binary64, written with the Standard Library's
    [spec_float]; strings are their UTF-8 bytes; an object is the list of
    its own properties in insertion order (keys distinct). *)
Inductive value : Type :=
| VUndefined
| VNull
| VBool (b : bool)
| VNum (n : spec_float)
| VStr (s : string)
| VArr (xs : list value)
| VObj (fields : list (string * value)).

(** A thrown [Error]: [message], and the [response] an axios error carries
    when upstream answered.  A [TypeError] has no [response]. *)
Record http_response : Type := { status : nat; data : value }.
Record error : Type := { message : string; response : option http_response }.

(** Synchronous code that may throw. *)
Inductive result (A : Type) : Type :=
| Ok (a : A)
| Throw (e : error).
Arguments Ok {A} a.
Arguments Throw {A} e.

Definition bind {A B : Type} (r : result A) (k : A -> result B) : result B :=
  match r with
  | Ok a => k a
  | Throw e => Throw e
  end.

Declare Scope js_scope.
Delimit Scope js_scope with js.
Notation "x <- r ;; k" := (bind r (fun x => k))
  (at level 61, r at next level, right associativity) : js_scope.
Open Scope js_scope.

Definition TypeError (msg : string) : error :=
  {| message := msg; response := None |}.

(** [Number(n)] for an array length or any other natural number. *)
Definition of_nat (n : nat) : spec_float :=
  binary_normalize 53 1024 (Z.of_nat n) 0 false.

Definition of_Z (z : Z) : spec_float :=
  binary_normalize 53 1024 z 0 false.

(** ToBoolean. *)
Definition truthy (v : value) : bool :=
  match v with
  | VUndefined | VNull => false
  | VBool b => b
  | VNum (S754_zero _) | VNum S754_nan => false
  | VNum _ => true
  | VStr s => negb (s =? "")
  | VArr _ | VObj _ => true
  end.

(** [a || b] on values that are already evaluated. *)
Definition or_else (a b : value) : value := if truthy a then a else b.

(** [a || b] and [a && b] with the right operand evaluated on demand. *)
Definition or_ (a b : result value) : result value :=
  x <- a ;; if truthy x then Ok x else b.

Definition and_ (a b : result value) : result value :=
  x <- a ;; if truthy x then b else Ok x.

Notation "a ||| b" := (or_ a b) (at level 50, left associativity) : js_scope.
Notation "a &&& b" := (and_ a b) (at level 40, left associativity) : js_scope.

Definition isArray (v : value) : bool :=
  match v with
  | VArr _ => true
  | _ => false
  end.

Fixpoint lookup (k : string) (fields : list (string * value)) : option value :=
  match fields with
  | [] => None
  | (k', v) :: rest => if k' =? k then Some v else lookup k rest
  end.

Definition has_own (k : string) (fields : list (string * value)) : bool :=
  match lookup k fields with
  | Some _ => true
  | None => false
  end.

(** The property names the handlers read.  None of them is inherited from
    [Object.prototype], [Array.prototype] or [String.prototype], so a read
    depends on own properties only. *)
Inductive prop : Type :=
| data_ | gamePasses | items | nextExclusiveStartId | nextCursor | meta
| totalCount | total | count.

Definition prop_name (p : prop) : string :=
  match p with
  | data_ => "data"
  | gamePasses => "gamePasses"
  | items => "items"
  | nextExclusiveStartId => "nextExclusiveStartId"
  | nextCursor => "nextCursor"
  | meta => "meta"
  | totalCount => "totalCount"
  | total => "total"
  | count => "count"
  end.

Definition nullish (v : value) : bool :=
  match v with
  | VUndefined | VNull => true
  | _ => false
  end.

Definition type_name (v : value) : string :=
  match v with
  | VUndefined => "undefined"
  | VNull => "null"
  | VBool _ => "boolean"
  | VNum _ => "number"
  | VStr _ => "string"
  | VArr _ | VObj _ => "object"
  end.

(** [v.p]: a TypeError on [null] and [undefined], the own property of an
    object, [undefined] everywhere else.  (The message is V8's wording.) *)
Definition get (v : value) (p : prop) : result value :=
  match v with
  | VUndefined | VNull =>
      Throw (TypeError ("Cannot read properties of " ++ type_name v
                        ++ " (reading '" ++ prop_name p ++ "')"))
  | VObj fields =>
      match lookup (prop_name p) fields with
      | Some x => Ok x
      | None => Ok VUndefined
      end
  | _ => Ok VUndefined
  end.

(** Splitting a UTF-8 string into its code points, the way a string
    iterator yields them: a byte [10xxxxxx] continues the code point
    before it. *)
Definition is_continuation (c : ascii) : bool :=
  let n := nat_of_ascii c in Nat.leb 128 n && Nat.ltb n 192.

Fixpoint code_points_from (cur : string) (s : string) : list string :=
  match s with
  | EmptyString => [cur]
  | String c rest =>
      if is_continuation c
      then code_points_from (cur ++ String c EmptyString) rest
      else cur :: code_points_from (String c EmptyString) rest
  end.

Definition code_points (s : string) : list string :=
  match s with
  | EmptyString => []
  | String c rest => code_points_from (String c EmptyString) rest
  end.

(** [...v] in an argument list: arrays and strings are iterable, nothing
    else that JSON can produce is.  (The message is V8's wording.) *)
Definition spread (v : value) : result (list value) :=
  match v with
  | VArr xs => Ok xs
  | VStr s => Ok (map VStr (code_points s))
  | _ => Throw (TypeError
           "Spread syntax requires ...iterable[Symbol.iterator] to be a function")
  end.

(** *** Strings read as numbers

    [Number(s)], [isNaN(s)] and [parseInt(s, 10)] on a string, following
    ECMAScript's StringNumericLiteral grammar over the UTF-8 bytes of [s].
    What the handlers observe of the resulting number is whether it is NaN,
    zero, positive or negative, so that is what [StringToNumber] returns. *)

Inductive sign_class : Type := SNaN | SZero | SPos | SNeg.

Definition bytes (s : string) : list nat :=
  map nat_of_ascii (list_ascii_of_string s).

(** StrWhiteSpaceChar: TAB LF VT FF CR SP, then U+00A0, U+1680,
    U+2000..U+200A, U+2028, U+2029, U+202F, U+205F, U+3000 and U+FEFF in
    UTF-8. *)
Definition ws1 (a : nat) : bool :=
  Nat.leb 9 a && Nat.leb a 13 || Nat.eqb a 32.

Definition ws2 (a b : nat) : bool :=
  Nat.eqb a 194 && Nat.eqb b 160.

Definition ws3 (a b c : nat) : bool :=
  Nat.eqb a 225 && Nat.eqb b 154 && Nat.eqb c 128
  || Nat.eqb a 226 && Nat.eqb b 128
     && (Nat.leb 128 c && Nat.leb c 138
         || Nat.eqb c 168 || Nat.eqb c 169 || Nat.eqb c 175)
  || Nat.eqb a 226 && Nat.eqb b 129 && Nat.eqb c 159
  || Nat.eqb a 227 && Nat.eqb b 128 && Nat.eqb c 128
  || Nat.eqb a 239 && Nat.eqb b 187 && Nat.eqb c 191.

Fixpoint skip_ws (s : list nat) : list nat :=
  match s with
  | [] => []
  | a :: t =>
      if ws1 a then skip_ws t
      else match t with
           | [] => s
           | b :: t2 =>
               if ws2 a b then skip_ws t2
               else match t2 with
                    | [] => s
                    | c :: t3 => if ws3 a b c then skip_ws t3 else s
                    end
           end
  end.

Definition all_ws (s : list nat) : bool :=
  match skip_ws s with
  | [] => true
  | _ => false
  end.

Definition is_digit (c : nat) : bool := Nat.leb 48 c && Nat.leb c 57.
Definition is_hex (c : nat) : bool :=
  is_digit c || Nat.leb 97 c && Nat.leb c 102 || Nat.leb 65 c && Nat.leb c 70.
Definition is_octal (c : nat) : bool := Nat.leb 48 c && Nat.leb c 55.
Definition is_binary (c : nat) : bool := Nat.leb 48 c && Nat.leb c 49.

Fixpoint take_digits (ok : nat -> bool) (s : list nat) : list nat * list nat :=
  match s with
  | [] => ([], [])
  | c :: t =>
      if ok c
      then let (d, r) := take_digits ok t in (c :: d, r)
      else ([], s)
  end.

Definition digits_value (ds : list nat) : Z :=
  fold_left (fun acc c => (acc * 10 + Z.of_nat (c - 48))%Z) ds 0%Z.

(** A leading [+] or [-]. *)
Definition take_sign (s : list nat) : bool * list nat :=
  match s with
  | c :: t =>
      if Nat.eqb c 45 then (true, t)
      else if Nat.eqb c 43 then (false, t)
      else (false, s)
  | [] => (false, [])
  end.

(** ExponentPart, when there is one: [e] or [E], a sign, digits. *)
Definition exponent_part (s : list nat) : option (Z * list nat) :=
  match s with
  | c :: t =>
      if Nat.eqb c 101 || Nat.eqb c 69
      then let (neg, u) := take_sign t in
           let (ds, r) := take_digits is_digit u in
           match ds with
           | [] => None
           | _ => Some (if neg then (- digits_value ds)%Z else digits_value ds, r)
           end
      else Some (0%Z, s)
  | [] => Some (0%Z, [])
  end.

(** StrUnsignedDecimalLiteral other than [Infinity]: mantissa [m] and
    decimal exponent [e] of the value [m * 10^e], and what follows. *)
Definition unsigned_decimal (s : list nat) : option (Z * Z * list nat) :=
  let (ip, r1) := take_digits is_digit s in
  let (fp, r2) :=
    match r1 with
    | c :: t => if Nat.eqb c 46 then take_digits is_digit t else ([], r1)
    | [] => ([], r1)
    end in
  match (ip ++ fp)%list with
  | [] => None
  | ds =>
      match exponent_part r2 with
      | Some (e, r3) => Some (digits_value ds, (e - Z.of_nat (length fp))%Z, r3)
      | None => None
      end
  end.

(** NonDecimalIntegerLiteral: [0x], [0o] or [0b] and at least one digit.
    Returns whether the value is zero, and what follows. *)
Definition non_decimal (s : list nat) : option (bool * list nat) :=
  match s with
  | z :: p :: t =>
      if Nat.eqb z 48 then
        let ok :=
          if Nat.eqb p 120 || Nat.eqb p 88 then Some is_hex
          else if Nat.eqb p 111 || Nat.eqb p 79 then Some is_octal
          else if Nat.eqb p 98 || Nat.eqb p 66 then Some is_binary
          else None in
        match ok with
        | Some ok =>
            let (ds, r) := take_digits ok t in
            match ds with
            | [] => None
            | _ => Some (forallb (Nat.eqb 48) ds, r)
            end
        | None => None
        end
      else None
  | _ => None
  end.

(** A positive [m * 10^e] rounds to [+0] when it is at most [2^-1075], half
    the least subnormal (the tie goes to the even mantissa, zero). *)
Definition rounds_to_zero (m e : Z) : bool :=
  if (0 <=? e)%Z then false else (m * 2 ^ 1075 <=? 10 ^ (- e))%Z.

Definition decimal_class (neg : bool) (m e : Z) : sign_class :=
  if (m =? 0)%Z then SZero
  else if rounds_to_zero m e then SZero
  else if neg then SNeg else SPos.

Definition Infinity_bytes : list nat := bytes "Infinity".

Fixpoint strip_prefix (p s : list nat) : option (list nat) :=
  match p, s with
  | [], _ => Some s
  | a :: p', b :: s' => if Nat.eqb a b then strip_prefix p' s' else None
  | _ :: _, [] => None
  end.

Definition StringToNumber (s : string) : sign_class :=
  match skip_ws (bytes s) with
  | [] => SZero
  | b =>
      match non_decimal b with
      | Some (zero, rest) =>
          if all_ws rest then (if zero then SZero else SPos) else SNaN
      | None =>
          let (neg, u) := take_sign b in
          match strip_prefix Infinity_bytes u with
          | Some rest =>
              if all_ws rest then (if neg then SNeg else SPos) else SNaN
          | None =>
              match unsigned_decimal u with
              | Some (m, e, rest) =>
                  if all_ws rest then decimal_class neg m e else SNaN
              | None => SNaN
              end
          end
      end
  end.

(** [isNaN(s)] for a string [s]. *)
Definition isNaN (s : string) : bool :=
  match StringToNumber s with
  | SNaN => true
  | _ => false
  end.

(** [parseInt(s, 10)]: leading white space, a sign, the longest run of
    decimal digits; NaN when there is none.  The integer is rounded to the
    nearest binary64, as V8 does. *)
Definition parseInt (s : string) : spec_float :=
  let (neg, u) := take_sign (skip_ws (bytes s)) in
  let (ds, _) := take_digits is_digit u in
  match ds with
  | [] => S754_nan
  | _ =>
      let n := digits_value ds in
      if (n =? 0)%Z then S754_zero neg
      else of_Z (if neg then (- n)%Z else n)
  end.

Definition number_class (n : spec_float) : sign_class :=
  match n with
  | S754_nan => SNaN
  | S754_zero _ => SZero
  | S754_infinity s | S754_finite s _ _ => if s then SNeg else SPos
  end.

(** *** Objects and arrays read as primitives

    JSON never yields a callable value, so an object with an own property
    [toString] has no usable conversion method and ToPrimitive throws;
    without one, [Object.prototype.toString] answers "[object Object]".
    An array joins the strings of its elements with commas, [null] and
    [undefined] counting as the empty string. *)
Fixpoint to_string_throws (v : value) : bool :=
  match v with
  | VObj fields => has_own "toString" fields
  | VArr xs => existsb to_string_throws xs
  | _ => false
  end.

(** The number that [Number(String(v))] is, for an element [v] of a joined
    array: a number survives the round trip through its string, and a join
    of two or more elements contains a comma, which no numeric literal
    does. *)
Fixpoint joined_class (v : value) : sign_class :=
  match v with
  | VUndefined | VNull => SZero
  | VBool _ => SNaN
  | VNum n => number_class n
  | VStr s => StringToNumber s
  | VArr [] => SZero
  | VArr [x] => joined_class x
  | VArr _ => SNaN
  | VObj _ => SNaN
  end.

(** ToNumber, after ToPrimitive with hint number. *)
Definition ToNumber (v : value) : result sign_class :=
  if to_string_throws v
  then Throw (TypeError "Cannot convert object to primitive value")
  else Ok match v with
          | VUndefined => SNaN
          | VNull => SZero
          | VBool b => if b then SPos else SZero
          | VNum n => number_class n
          | VStr s => StringToNumber s
          | VArr _ => joined_class v
          | VObj _ => SNaN
          end.

(** [v > 0]. *)
Definition gt_zero (v : value) : result bool :=
  c <- ToNumber v ;;
  Ok match c with
     | SPos => true
     | _ => false
     end.

(** [s.toLowerCase() === 'true'].  Lower-casing is done on ASCII letters:
    no other letter has t, r, u or e for its lower case, so the comparison
    is the same. *)
Definition lower (c : nat) : nat :=
  if Nat.leb 65 c && Nat.leb c 90 then c + 32 else c.

Definition lowercase_is_true (s : string) : bool :=
  if list_eq_dec Nat.eq_dec (map lower (bytes s)) (bytes "true")
  then true else false.

End JS.

(** ** Upstream calls and Express replies *)
Module Http.
Import JS.

(** A template literal: quoted text and substituted values.  A URL stays
    in this form, so that a substituted number needs no printing. *)
Inductive piece : Type :=
| Lit (s : string)
| Subst (v : value).

Definition url : Type := list piece.

(** Evaluating the template converts each substituted value to a string,
    which throws where ToPrimitive does. *)
Definition template (u : list piece) : result url :=
  if existsb (fun p => match p with
                       | Lit _ => false
                       | Subst v => to_string_throws v
                       end) u
  then Throw (TypeError "Cannot convert object to primitive value")
  else Ok u.

(** What upstream does with one GET: it answers with a status and a body,
    or nothing comes back (DNS, connect, timeout). *)
Inductive outcome : Type :=
| Answer (r : http_response)
| NoAnswer (msg : string).

Record config : Type := { headers : list (string * value); timeout : Z }.

(** One upstream call: what was requested and what came back. *)
Record call : Type := { sent : url; options : config; got : outcome }.

(** Upstream as the handler sees it: the answer to its [k]-th call
    (counting from 0) for the URL and options it sends. *)
Definition upstream : Type := nat -> url -> config -> outcome.

Definition is_2xx (st : nat) : bool := Nat.leb 200 st && Nat.ltb st 300.

Definition dec (n : nat) : string := NilZero.string_of_uint (Nat.to_uint n).

(** axios settles a response by its status: 2xx resolves to the response,
    anything else rejects with an error that carries the response. *)
Definition settle (o : outcome) : result http_response :=
  match o with
  | Answer r =>
      if is_2xx (status r) then Ok r
      else Throw {| message := "Request failed with status code " ++ dec (status r);
                    response := Some r |}
  | NoAnswer msg => Throw {| message := msg; response := None |}
  end.

(** node-fetch: the promise resolves to a response whatever its status;
    reading the body as text or as JSON may still fail. *)
Record fetch_response : Type :=
  { fetch_status : nat; text : result string; json : result value }.

Definition ok (r : fetch_response) : bool := is_2xx (fetch_status r).

Record fetch_call : Type := { target : url; init_headers : list (string * value) }.

Definition fetcher : Type := url -> list (string * value) -> result fetch_response.

(** [URLSearchParams.prototype.toString]: the form-urlencoded serializer,
    byte by byte. *)
Definition hex_digit (n : nat) : ascii :=
  ascii_of_nat (if Nat.ltb n 10 then 48 + n else 55 + n).

Definition form_unreserved (c : nat) : bool :=
  is_digit c || Nat.leb 65 c && Nat.leb c 90 || Nat.leb 97 c && Nat.leb c 122
  || Nat.eqb c 42 || Nat.eqb c 45 || Nat.eqb c 46 || Nat.eqb c 95.

Fixpoint form_encode (s : string) : string :=
  match s with
  | EmptyString => EmptyString
  | String c rest =>
      let n := nat_of_ascii c in
      if form_unreserved n then String c (form_encode rest)
      else if Nat.eqb n 32 then String "+" (form_encode rest)
      else String "%" (String (hex_digit (n / 16))
                         (String (hex_digit (n mod 16)) (form_encode rest)))
  end.

Definition URLSearchParams_toString (params : list (string * string)) : string :=
  String.concat "&" (map (fun kv => form_encode (fst kv) ++ "=" ++ form_encode (snd kv))
                         params).

(** A parameter of [req.query]: a string, and for a repeated or bracketed
    parameter the array or object that Express parses it to. *)
Inductive param : Type :=
| PStr (s : string)
| PArr (xs : list param)
| PObj (fields : list (string * param)).

(** [String(p)], which is also what a template literal, [parseInt] and
    [URLSearchParams.append] make of [p], and [Number(p)] is the number
    this string reads as.  The own properties of a parsed object are the
    keys of the query string and none of them is a function: when one of
    them is [toString] (Express 4 parses [?userId[toString]=1] to such an
    object) ToPrimitive finds no callable [toString], [valueOf] gives back
    the object, and the conversion throws.  An array is joined, so it
    throws where one of its elements does. *)
Fixpoint sequence {A : Type} (l : list (result A)) : result (list A) :=
  match l with
  | [] => Ok []
  | r :: rest => x <- r ;; xs <- sequence rest ;; Ok (x :: xs)
  end.

Definition own_key (k : string) (fields : list (string * param)) : bool :=
  existsb (fun kv => fst kv =? k) fields.

Fixpoint param_text (p : param) : result string :=
  match p with
  | PStr s => Ok s
  | PArr xs => texts <- sequence (map param_text xs) ;; Ok (String.concat "," texts)
  | PObj fields =>
      if own_key "toString" fields
      then Throw (TypeError "Cannot convert object to primitive value")
      else Ok "[object Object]"
  end.

Definition req_query : Type := string -> option param.

(** [!v] for a query parameter. *)
Definition missing (v : option param) : bool :=
  match v with
  | None => true
  | Some (PStr s) => s =? ""
  | Some _ => false
  end.

(** [String(v)] for a query parameter that may be absent. *)
Definition to_text (v : option param) : result string :=
  match v with
  | Some p => param_text p
  | None => Ok "undefined"
  end.

(** The text of a parameter, for one that has a text.  Where [fetch] is
    handed the parameter itself the conversion is the fetch's own, and an
    object that has no text stands in the recorded request like any other
    object. *)
Definition text_of (v : option param) : string :=
  match to_text v with
  | Ok s => s
  | Throw _ => "[object Object]"
  end.

(** [isNaN(v)] for a query parameter. *)
Definition isNaN_of (v : option param) : result bool :=
  s <- to_text v ;; Ok (isNaN s).

(** [if (v) params.append(k, v)] *)
Definition append_if (k : string) (v : option param)
    (params : list (string * string)) : result (list (string * string)) :=
  if missing v then Ok params
  else s <- to_text v ;; Ok (params ++ [(k, s)])%list.

(** [!v] for an environment variable. *)
Definition unset (v : option string) : bool :=
  match v with
  | Some x => x =? ""
  | None => true
  end.

(** The Express response object, as far as the handlers drive it: the
    status and the headers they set themselves, and what they send.
    (Express completes a Content-Type with its charset, and [res.json]
    sets one of its own.) *)
Inductive payload : Type :=
| Json (v : value)
| Text (s : string).

Record reply : Type :=
  { statusCode : nat; sent_headers : list (string * string); body : option payload }.

Definition res : reply :=
  {| statusCode := 200; sent_headers := []; body := None |}.

Definition res_status (c : nat) (r : reply) : reply :=
  {| statusCode := c; sent_headers := sent_headers r; body := body r |}.

Definition res_set (k v : string) (r : reply) : reply :=
  {| statusCode := statusCode r;
     sent_headers := (sent_headers r ++ [(k, v)])%list;
     body := body r |}.

Definition res_type (t : string) (r : reply) : reply := res_set "Content-Type" t r.

Definition res_json (v : value) (r : reply) : reply :=
  {| statusCode := statusCode r; sent_headers := sent_headers r; body := Some (Json v) |}.

Definition res_send (s : string) (r : reply) : reply :=
  {| statusCode := statusCode r; sent_headers := sent_headers r; body := Some (Text s) |}.

(** What a handler [async (req, res) => ...] has done when it settles: it
    has sent a reply, or it has thrown outside any [try] and has sent
    none (Express 4 does not look at the promise a handler returns); and
    the calls it made on the way. *)
Definition handled : Type := (result reply * list fetch_call)%type.

(** The status of the reply, when there is one. *)
Definition status_sent (h : handled) : option nat :=
  match fst h with
  | Ok r => Some (statusCode r)
  | Throw _ => None
  end.

(** [/^\d+$/.test(s)]: one or more ASCII digits and nothing else. *)
Definition all_digits (s : string) : bool :=
  negb (s =? "") && forallb is_digit (bytes s).

(** [err?.response?.status] and [err?.response?.data].  A status that is
    [undefined] reads as 0 here: both are falsy, and no HTTP status is 0. *)
Definition err_status (err : error) : nat :=
  match response err with
  | Some r => status r
  | None => 0
  end.

Definition err_data (err : error) : value :=
  match response err with
  | Some r => data r
  | None => VUndefined
  end.

End Http.

(** ** src/index.js:214-340, the axios wrapper *)
Module Wrapper.
Import JS Http.

Section Routes.

(** [process.env] *)
Variable env : string -> option string.

Definition ROBLOX_API_KEY : string :=
  match env "ROBLOX_API_KEY" with
  | Some k => k
  | None => ""
  end.

Definition USE_ROROXY : bool :=
  match env "USE_ROROXY" with
  | Some v => v =? "1"
  | None => false
  end.

Definition cloudRequestOptions : config :=
  {| headers := [("x-api-key", VStr ROBLOX_API_KEY);
                 ("User-Agent", VStr "MyGamePassFetcher/1.0")];
     timeout := 10000%Z |}.

Definition pageLimit : nat := 100.
Definition safetyPages : nat := 50.

Definition base : string :=
  if USE_ROROXY then "https://rproxy.org/http://apis.roblox.com"
  else "https://apis.roblox.com".

(** Lines 264-276: pushing the items of one page. *)
Definition push_items (results : list value) (body : value) : result (list value) :=
  d <- get body data_ ;;
  if isArray d then
    xs <- spread d ;; Ok (results ++ xs)%list
  else if isArray body then
    xs <- spread body ;; Ok (results ++ xs)%list
  else
    gp <- get body gamePasses ;;
    if truthy gp then
      xs <- spread gp ;; Ok (results ++ xs)%list
    else
      it <- get body items ;;
      if truthy it then xs <- spread it ;; Ok (results ++ xs)%list
      else Ok results.

(** Line 279: the cursor of the next page. *)
Definition nextId (body : value) : result value :=
  get body nextExclusiveStartId
  ||| get body nextCursor
  ||| (get body meta &&& (m <- get body meta ;; get m nextExclusiveStartId))
  ||| Ok VNull.

(** What the loop does after one page has been handled. *)
Inductive control : Type :=
| Continue (results : list value) (exclusiveStartId : value)
| Break (results : list value).

(** Lines 262-282: one page, from the response body to the loop's fate. *)
Definition page (results : list value) (body : value) : result control :=
  results <- push_items results body ;;
  next <- nextId body ;;
  if negb (truthy next) then Ok (Break results)
  else Ok (Continue results next).

Definition page_url (userId : string) (exclusiveStartId : value) : list piece :=
  [Lit base; Lit "/game-passes/v1/users/"; Lit userId;
   Lit "/game-passes?count="; Lit (dec pageLimit)]
  ++ (if truthy exclusiveStartId
      then [Lit "&exclusiveStartId="; Subst exclusiveStartId]
      else [Lit ""]).

(** Lines 259-283, [while (pages < safetyPages)].  [trace] holds the calls
    made so far; the loop ends with the results or with what was thrown.
    [None] means the model ran out of [fuel] before the loop ended. *)
Fixpoint while (fuel : nat) (up : upstream) (userId : string)
    (results : list value) (exclusiveStartId : value) (pages : nat)
    (trace : list call) : option (result (list value) * list call) :=
  if Nat.ltb pages safetyPages then
    match fuel with
    | 0 => None
    | S fuel =>
        match template (page_url userId exclusiveStartId) with
        | Throw err => Some (Throw err, trace)
        | Ok u =>
            let o := up (length trace) u cloudRequestOptions in
            let trace := (trace ++ [{| sent := u; options := cloudRequestOptions;
                                       got := o |}])%list in
            match (resp <- settle o ;; page results (data resp)) with
            | Throw err => Some (Throw err, trace)
            | Ok (Break results) => Some (Ok results, trace)
            | Ok (Continue results next) =>
                while fuel up userId results next (S pages) trace
            end
        end
    end
  else Some (Ok results, trace).

(** Lines 287-291, the [catch] of the route. *)
Definition created_gamepasses_catch (err : error) : reply :=
  let status := if Nat.eqb (err_status err) 0 then 500 else err_status err in
  res_json (VObj [("ok", VBool false);
                  ("error", or_else (or_else (err_data err) (VStr (message err)))
                                    (VStr "request failed"))])
           (res_status status res).

(** GET /api/created-gamepasses/:userId *)
Definition created_gamepasses (fuel : nat) (up : upstream) (userId : string)
    : option (reply * list call) :=
  if negb (all_digits userId) then
    Some (res_json (VObj [("error", VStr "userId must be numeric")])
                   (res_status 400 res), [])
  else
    match while fuel up userId [] (VStr "") 0 [] with
    | None => None
    | Some (Ok results, trace) =>
        Some (res_json (VObj [("ok", VBool true);
                              ("count", VNum (of_nat (length results)));
                              ("results", VArr results)]) res, trace)
    | Some (Throw err, trace) => Some (created_gamepasses_catch err, trace)
    end.

(** Lines 311-326: reading the inventory answer. *)
Definition owns_verdict (body : value) : result reply :=
  is_list <- Ok body &&& (d <- get body data_ ;; Ok (VBool (isArray d))) ;;
  if truthy is_list then
    d <- get body data_ ;;
    xs <- spread d ;;
    let owns := Nat.ltb 0 (length xs) in
    Ok (res_json (VObj [("ok", VBool true); ("owns", VBool owns); ("raw", body)]) res)
  else
    some <- Ok body &&& (get body totalCount ||| get body total ||| get body count) ;;
    if truthy some then
      count <- get body totalCount ||| get body total ||| get body count ;;
      positive <- gt_zero count ;;
      Ok (res_json (VObj [("ok", VBool true); ("owns", VBool positive);
                          ("count", count); ("raw", body)]) res)
    else
      Ok (res_json (VObj [("ok", VBool false); ("owns", VStr "unknown");
                          ("raw", body)]) res).

(** Lines 328-335, the [catch] of the route. *)
Definition owns_catch (err : error) : reply :=
  if Nat.eqb (err_status err) 404 then
    res_json (VObj [("ok", VBool true); ("owns", VBool false)]) res
  else
    let status := if Nat.eqb (err_status err) 0 then 500 else err_status err in
    res_json (VObj [("ok", VBool false);
                    ("error", or_else (or_else (err_data err) (VStr (message err)))
                                      (VStr "request failed"))])
             (res_status status res).

(** GET /api/owns/:userId/:gamePassId *)
Definition owns (up : upstream) (userId gamePassId : string) : reply * list call :=
  if negb (all_digits userId) || negb (all_digits gamePassId) then
    (res_json (VObj [("error", VStr "userId and gamePassId must be numeric")])
              (res_status 400 res), [])
  else
    let inventoryUrl :=
      [Lit "https://inventory.roblox.com/v1/users/"; Lit userId;
       Lit "/items/GamePass/"; Lit gamePassId] in
    let cfg := {| headers := [("User-Agent", VStr "MyGamePassFetcher/1.0")];
                  timeout := 10000%Z |} in
    let o := up 0 inventoryUrl cfg in
    let trace := [{| sent := inventoryUrl; options := cfg; got := o |}] in
    match (resp <- settle o ;; owns_verdict (data resp)) with
    | Ok r => (r, trace)
    | Throw err => (owns_catch err, trace)
    end.

End Routes.
End Wrapper.

(** ** src/index.js:341-455, the dotenv generation of the wrapper *)
Module WrapperEnv.
Import JS Http.

Section Routes.

Variable env : string -> option string.

Definition ROBLOX_API_KEY : value :=
  match env "ROBLOX_API_KEY" with
  | Some k => VStr k
  | None => VUndefined
  end.

Definition cloudRequestOptions : config :=
  {| headers := [("x-api-key", ROBLOX_API_KEY);
                 ("User-Agent", VStr "MyRobloxGamepassFetcher/1.0")];
     timeout := 10000%Z |}.

Definition pageLimit : nat := 100.
Definition safetyPages : nat := 50.
Definition base : string := "https://apis.roblox.com".

(** Lines 395-398. *)
Definition push_items (results : list value) (body : value) : result (list value) :=
  d <- get body data_ ;;
  if isArray d then
    xs <- spread d ;; Ok (results ++ xs)%list
  else
    gp <- get body gamePasses ;;
    if isArray gp then
      xs <- spread gp ;; Ok (results ++ xs)%list
    else
      it <- get body items ;;
      if isArray it then xs <- spread it ;; Ok (results ++ xs)%list
      else Ok results.

(** Lines 400-403. *)
Definition nextId (body : value) : result value :=
  get body nextExclusiveStartId
  ||| get body nextCursor
  ||| (get body meta &&& (m <- get body meta ;; get m nextExclusiveStartId)).

Inductive control : Type :=
| Continue (results : list value) (exclusiveStartId : value)
| Break (results : list value).

Definition page (results : list value) (body : value) : result control :=
  results <- push_items results body ;;
  next <- nextId body ;;
  if negb (truthy next) then Ok (Break results)
  else Ok (Continue results next).

Definition page_url (userId : string) (exclusiveStartId : value) : list piece :=
  [Lit base; Lit "/game-passes/v1/users/"; Lit userId;
   Lit "/game-passes?count="; Lit (dec pageLimit)]
  ++ (if truthy exclusiveStartId
      then [Lit "&exclusiveStartId="; Subst exclusiveStartId]
      else [Lit ""]).

(** Lines 387-408. *)
Fixpoint while (fuel : nat) (up : upstream) (userId : string)
    (results : list value) (exclusiveStartId : value) (pages : nat)
    (trace : list call) : option (result (list value) * list call) :=
  if Nat.ltb pages safetyPages then
    match fuel with
    | 0 => None
    | S fuel =>
        match template (page_url userId exclusiveStartId) with
        | Throw err => Some (Throw err, trace)
        | Ok u =>
            let o := up (length trace) u cloudRequestOptions in
            let trace := (trace ++ [{| sent := u; options := cloudRequestOptions;
                                       got := o |}])%list in
            match (resp <- settle o ;; page results (data resp)) with
            | Throw err => Some (Throw err, trace)
            | Ok (Break results) => Some (Ok results, trace)
            | Ok (Continue results next) =>
                while fuel up userId results next (S pages) trace
            end
        end
    end
  else Some (Ok results, trace).

(** Lines 411-416. *)
Definition route_catch (err : error) : reply :=
  res_json (VObj [("ok", VBool false);
                  ("error", or_else (err_data err) (VStr (message err)))])
           (res_status (if Nat.eqb (err_status err) 0 then 500 else err_status err) res).

(** GET /api/created-gamepasses/:userId *)
Definition created_gamepasses (fuel : nat) (up : upstream) (userId : string)
    : option (reply * list call) :=
  if negb (all_digits userId) then
    Some (res_json (VObj [("error", VStr "userId must be numeric")])
                   (res_status 400 res), [])
  else
    match while fuel up userId [] (VStr "") 0 [] with
    | None => None
    | Some (Ok results, trace) =>
        Some (res_json (VObj [("ok", VBool true);
                              ("count", VNum (of_nat (length results)));
                              ("results", VArr results)]) res, trace)
    | Some (Throw err, trace) => Some (route_catch err, trace)
    end.

(** Lines 433-444. *)
Definition owns_verdict (body : value) : result reply :=
  is_list <- Ok body &&& (d <- get body data_ ;; Ok (VBool (isArray d))) ;;
  if truthy is_list then
    d <- get body data_ ;;
    xs <- spread d ;;
    Ok (res_json (VObj [("ok", VBool true); ("owns", VBool (Nat.ltb 0 (length xs)));
                        ("raw", body)]) res)
  else
    some <- Ok body &&& (get body totalCount ||| get body total ||| get body count) ;;
    if truthy some then
      count <- get body totalCount ||| get body total ||| get body count ;;
      positive <- gt_zero count ;;
      Ok (res_json (VObj [("ok", VBool true); ("owns", VBool positive);
                          ("count", count); ("raw", body)]) res)
    else
      Ok (res_json (VObj [("ok", VBool false); ("owns", VStr "unknown");
                          ("raw", body)]) res).

(** Lines 445-451. *)
Definition owns_catch (err : error) : reply :=
  if Nat.eqb (err_status err) 404 then
    res_json (VObj [("ok", VBool true); ("owns", VBool false)]) res
  else route_catch err.

(** GET /api/owns/:userId/:gamePassId *)
Definition owns (up : upstream) (userId gamePassId : string) : reply * list call :=
  if negb (all_digits userId) || negb (all_digits gamePassId) then
    (res_json (VObj [("error", VStr "userId and gamePassId must be numeric")])
              (res_status 400 res), [])
  else
    let inventoryUrl :=
      [Lit "https://inventory.roblox.com/v1/users/"; Lit userId;
       Lit "/items/GamePass/"; Lit gamePassId] in
    let cfg := {| headers := [("User-Agent", VStr "MyRobloxGamepassFetcher/1.0")];
                  timeout := 10000%Z |} in
    let o := up 0 inventoryUrl cfg in
    let trace := [{| sent := inventoryUrl; options := cfg; got := o |}] in
    match (resp <- settle o ;; owns_verdict (data resp)) with
    | Ok r => (r, trace)
    | Throw err => (owns_catch err, trace)
    end.

End Routes.
End WrapperEnv.

(** ** src/index.js:1-213, the fetch based API *)
Module Api.
Import JS Http.

Section Routes.

Variable env : string -> option string.

(** [new Date().toISOString()] when the reply is built. *)
Variable now : string.

Definition ROBLOX_API_KEY : option string := env "ROBLOX_API_KEY".

Definition key_header : value :=
  match ROBLOX_API_KEY with
  | Some k => VStr k
  | None => VUndefined
  end.

(** GET /api/v1/check-ownership, lines 55-112.  [isNaN] and the template
    literal of the URL convert the parameters before the [try]: a
    conversion that throws ends the handler there, without a reply. *)
Definition check_ownership (fetch : fetcher) (query : req_query)
    : handled :=
  let userId := query "userId" in
  let gamePassId := query "gamePassId" in
  if missing userId || missing gamePassId then
    (Ok (res_json (VObj [("success", VBool false);
                         ("message", VStr "Missing required parameters: userId and gamePassId.")])
                  (res_status 400 res)), [])
  else
    match (a <- isNaN_of userId ;; if a then Ok true else isNaN_of gamePassId) with
    | Throw err => (Throw err, [])
    | Ok true =>
        (Ok (res_json (VObj [("success", VBool false);
                             ("message", VStr "userId and gamePassId must be valid numbers.")])
                      (res_status 400 res)), [])
    | Ok false =>
    let assetType := "GamePass" in
    match (u <- to_text userId ;; g <- to_text gamePassId ;;
           Ok [Lit "https://inventory.roblox.com/v1/users/"; Lit u;
               Lit "/items/"; Lit assetType; Lit "/"; Lit g; Lit "/is-owned"]) with
    | Throw err => (Throw err, [])
    | Ok apiUrl =>
    let init := [("Content-Type", VStr "application/json")] in
    let trace := [{| target := apiUrl; init_headers := init |}] in
    let outcome :=
      response <- fetch apiUrl init ;;
      if negb (ok response) then
        Ok (res_json (VObj [("success", VBool false);
                            ("message", VStr "Failed to check ownership via Roblox API.");
                            ("robloxStatusCode", VNum (of_nat (fetch_status response)))])
                     (res_status (fetch_status response) res))
      else
        isOwnedText <- text response ;;
        let isOwned := lowercase_is_true isOwnedText in
        uid <- to_text userId ;;
        gid <- to_text gamePassId ;;
        Ok (res_json (VObj [("success", VBool true);
                            ("method", VStr "check-ownership");
                            ("userId", VNum (parseInt uid));
                            ("gamePassId", VNum (parseInt gid));
                            ("isOwned", VBool isOwned);
                            ("timestamp", VStr now)]) res) in
    match outcome with
    | Ok r => (Ok r, trace)
    | Throw error =>
        (Ok (res_json (VObj [("success", VBool false);
                             ("message", VStr "Internal server error while processing ownership check.");
                             ("error", VStr (message error))])
                      (res_status 500 res)), trace)
    end
    end
    end.

(** GET /api/v1/list-gamepasses, lines 115-187.  Here too [isNaN],
    [params.append] and the template literal come before the [try]. *)
Definition list_gamepasses (fetch : fetcher) (query : req_query)
    : handled :=
  let universeId := query "universeId" in
  let passView := query "passView" in
  let pageSize := query "pageSize" in
  let pageToken := query "pageToken" in
  if missing universeId then
    (Ok (res_json (VObj [("success", VBool false);
                         ("message", VStr "Missing required parameter: universeId.")])
                  (res_status 400 res)), [])
  else
    match isNaN_of universeId with
    | Throw err => (Throw err, [])
    | Ok true =>
        (Ok (res_json (VObj [("success", VBool false);
                             ("message", VStr "universeId must be a valid number.")])
                      (res_status 400 res)), [])
    | Ok false =>
  if unset ROBLOX_API_KEY then
    (Ok (res_json (VObj [("success", VBool false);
                         ("message", VStr "Server Error: ROBLOX_API_KEY environment variable is not set.");
                         ("guide", VStr "Please generate a key on the Creator Dashboard with Game Pass read permissions.")])
                  (res_status 500 res)), [])
  else
    match (params <- append_if "passView" passView [] ;;
           params <- append_if "pageSize" pageSize params ;;
           params <- append_if "pageToken" pageToken params ;;
           u <- to_text universeId ;;
           Ok [Lit "https://apis.roblox.com/game-passes/v1/universes/";
               Lit u; Lit "/game-passes?";
               Lit (URLSearchParams_toString params)]) with
    | Throw err => (Throw err, [])
    | Ok apiUrl =>
    let init := [("x-api-key", key_header); ("Content-Type", VStr "application/json")] in
    let trace := [{| target := apiUrl; init_headers := init |}] in
    let outcome :=
      response <- fetch apiUrl init ;;
      if negb (ok response) then
        errorText <- text response ;;
        Ok (res_json (VObj [("success", VBool false);
                            ("message", VStr "Failed to retrieve game passes from Roblox API.");
                            ("robloxStatusCode", VNum (of_nat (fetch_status response)));
                            ("robloxError", VStr errorText)])
                     (res_status (fetch_status response) res))
      else
        data <- json response ;;
        uid <- to_text universeId ;;
        Ok (res_json (VObj [("success", VBool true);
                            ("method", VStr "list-gamepasses");
                            ("universeId", VNum (parseInt uid));
                            ("data", data);
                            ("timestamp", VStr now)]) res) in
    match outcome with
    | Ok r => (Ok r, trace)
    | Throw error =>
        (Ok (res_json (VObj [("success", VBool false);
                             ("message", VStr "Internal server error while processing the game pass list request.");
                             ("error", VStr (message error))])
                      (res_status 500 res)), trace)
    end
    end
    end.

End Routes.
End Api.

(** ** src/index.js:456-578, the fetch based API without isNaN *)
Module ApiRender.
Import JS Http.

Section Routes.

Variable env : string -> option string.

Definition ROBLOX_API_KEY : option string := env "ROBLOX_API_KEY".

Definition key_header : value :=
  match ROBLOX_API_KEY with
  | Some k => VStr k
  | None => VUndefined
  end.

(** GET /api/v1/check-ownership, lines 468-510. *)
Definition check_ownership (fetch : fetcher) (query : req_query)
    : handled :=
  let userId := query "userId" in
  let gamePassId := query "gamePassId" in
  if missing userId || missing gamePassId then
    (Ok (res_json (VObj [("success", VBool false);
                         ("message", VStr "Missing required parameters: userId and gamePassId.")])
                  (res_status 400 res)), [])
  else
    let assetType := "GamePass" in
    match (u <- to_text userId ;; g <- to_text gamePassId ;;
           Ok [Lit "https://inventory.roblox.com/v1/users/"; Lit u;
               Lit "/items/"; Lit assetType; Lit "/"; Lit g; Lit "/is-owned"]) with
    | Throw err => (Throw err, [])
    | Ok apiUrl =>
    let trace := [{| target := apiUrl; init_headers := [] |}] in
    let outcome :=
      response <- fetch apiUrl [] ;;
      if negb (ok response) then
        Ok (res_json (VObj [("success", VBool false);
                            ("message", VStr "Failed to check ownership via Roblox API.");
                            ("robloxStatusCode", VNum (of_nat (fetch_status response)))])
                     (res_status (fetch_status response) res))
      else
        isOwnedText <- text response ;;
        let isOwned := lowercase_is_true isOwnedText in
        uid <- to_text userId ;;
        gid <- to_text gamePassId ;;
        Ok (res_json (VObj [("success", VBool true);
                            ("method", VStr "check-ownership");
                            ("userId", VNum (parseInt uid));
                            ("gamePassId", VNum (parseInt gid));
                            ("isOwned", VBool isOwned)]) res) in
    match outcome with
    | Ok r => (Ok r, trace)
    | Throw error =>
        (Ok (res_json (VObj [("success", VBool false);
                             ("message", VStr "Internal server error while processing ownership check.");
                             ("error", VStr (message error))])
                      (res_status 500 res)), trace)
    end
    end.

(** GET /api/v1/list-gamepasses, lines 512-573. *)
Definition list_gamepasses (fetch : fetcher) (query : req_query)
    : handled :=
  let universeId := query "universeId" in
  let passView := query "passView" in
  let pageSize := query "pageSize" in
  let pageToken := query "pageToken" in
  if missing universeId then
    (Ok (res_json (VObj [("success", VBool false);
                         ("message", VStr "Missing required parameter: universeId.")])
                  (res_status 400 res)), [])
  else if unset ROBLOX_API_KEY then
    (Ok (res_json (VObj [("success", VBool false);
                         ("message", VStr "Server Error: ROBLOX_API_KEY environment variable is not set. This endpoint requires an authenticated Open Cloud API Key.");
                         ("guide", VStr "Please generate a key on the Creator Dashboard with Game Pass read permissions and set it on Render.")])
                  (res_status 500 res)), [])
  else
    match (params <- append_if "passView" passView [] ;;
           params <- append_if "pageSize" pageSize params ;;
           params <- append_if "pageToken" pageToken params ;;
           u <- to_text universeId ;;
           Ok [Lit "https://apis.roblox.com/game-passes/v1/universes/";
               Lit u; Lit "/game-passes?";
               Lit (URLSearchParams_toString params)]) with
    | Throw err => (Throw err, [])
    | Ok apiUrl =>
    let init := [("x-api-key", key_header); ("Content-Type", VStr "application/json")] in
    let trace := [{| target := apiUrl; init_headers := init |}] in
    let outcome :=
      response <- fetch apiUrl init ;;
      if negb (ok response) then
        errorText <- text response ;;
        Ok (res_json (VObj [("success", VBool false);
                            ("message", VStr "Failed to retrieve game passes from Roblox API. Check API Key permissions or Universe ID.");
                            ("robloxStatusCode", VNum (of_nat (fetch_status response)));
                            ("robloxError", VStr errorText)])
                     (res_status (fetch_status response) res))
      else
        data <- json response ;;
        uid <- to_text universeId ;;
        Ok (res_json (VObj [("success", VBool true);
                            ("method", VStr "list-gamepasses");
                            ("universeId", VNum (parseInt uid));
                            ("data", data)]) res) in
    match outcome with
    | Ok r => (Ok r, trace)
    | Throw error =>
        (Ok (res_json (VObj [("success", VBool false);
                             ("message", VStr "Internal server error while processing the game pass list request.");
                             ("error", VStr (message error))])
                      (res_status 500 res)), trace)
    end
    end.

End Routes.
End ApiRender.

(** ** src/unnamed/part_001, the keyless generation *)
Module Keyless.
Import JS Http.

(** GET /api/v1/check-ownership, lines 18-60. *)
Definition check_ownership (fetch : fetcher) (query : req_query)
    : handled :=
  let userId := query "userId" in
  let gamePassId := query "gamePassId" in
  if missing userId || missing gamePassId then
    (Ok (res_json (VObj [("success", VBool false);
                         ("message", VStr "Missing required parameters: userId and gamePassId.")])
                  (res_status 400 res)), [])
  else
    let assetType := "GamePass" in
    match (u <- to_text userId ;; g <- to_text gamePassId ;;
           Ok [Lit "https://inventory.roblox.com/v1/users/"; Lit u;
               Lit "/items/"; Lit assetType; Lit "/"; Lit g; Lit "/is-owned"]) with
    | Throw err => (Throw err, [])
    | Ok apiUrl =>
    let trace := [{| target := apiUrl; init_headers := [] |}] in
    let outcome :=
      response <- fetch apiUrl [] ;;
      if negb (ok response) then
        Ok (res_json (VObj [("success", VBool false);
                            ("message", VStr "Failed to check ownership via Roblox API.");
                            ("robloxStatusCode", VNum (of_nat (fetch_status response)))])
                     (res_status (fetch_status response) res))
      else
        isOwnedText <- text response ;;
        let isOwned := lowercase_is_true isOwnedText in
        uid <- to_text userId ;;
        gid <- to_text gamePassId ;;
        Ok (res_json (VObj [("success", VBool true);
                            ("method", VStr "check-ownership");
                            ("userId", VNum (parseInt uid));
                            ("gamePassId", VNum (parseInt gid));
                            ("isOwned", VBool isOwned)]) res) in
    match outcome with
    | Ok r => (Ok r, trace)
    | Throw error =>
        (Ok (res_json (VObj [("success", VBool false);
                             ("message", VStr "Internal server error while processing ownership check.");
                             ("error", VStr (message error))])
                      (res_status 500 res)), trace)
    end
    end.

(** GET /api/v1/list-gamepasses, lines 69-118: no API key is read or sent. *)
Definition list_gamepasses (fetch : fetcher) (query : req_query)
    : handled :=
  let universeId := query "universeId" in
  let passView := query "passView" in
  let pageSize := query "pageSize" in
  let pageToken := query "pageToken" in
  if missing universeId then
    (Ok (res_json (VObj [("success", VBool false);
                         ("message", VStr "Missing required parameter: universeId.")])
                  (res_status 400 res)), [])
  else
    match (params <- append_if "passView" passView [] ;;
           params <- append_if "pageSize" pageSize params ;;
           params <- append_if "pageToken" pageToken params ;;
           u <- to_text universeId ;;
           Ok [Lit "https://apis.roblox.com/game-passes/v1/universes/";
               Lit u; Lit "/game-passes?";
               Lit (URLSearchParams_toString params)]) with
    | Throw err => (Throw err, [])
    | Ok apiUrl =>
    let trace := [{| target := apiUrl; init_headers := [] |}] in
    let outcome :=
      response <- fetch apiUrl [] ;;
      if negb (ok response) then
        errorText <- text response ;;
        Ok (res_json (VObj [("success", VBool false);
                            ("message", VStr "Failed to retrieve game passes from Roblox API.");
                            ("robloxStatusCode", VNum (of_nat (fetch_status response)));
                            ("robloxError", VStr errorText)])
                     (res_status (fetch_status response) res))
      else
        data <- json response ;;
        uid <- to_text universeId ;;
        Ok (res_json (VObj [("success", VBool true);
                            ("method", VStr "list-gamepasses");
                            ("universeId", VNum (parseInt uid));
                            ("data", data)]) res) in
    match outcome with
    | Ok r => (Ok r, trace)
    | Throw error =>
        (Ok (res_json (VObj [("success", VBool false);
                             ("message", VStr "Internal server error while processing the game pass list request.");
                             ("error", VStr (message error))])
                      (res_status 500 res)), trace)
    end
    end.

End Keyless.

(** ** src/unnamed/part_000, the URL forwarder *)
Module Proxy.
Import JS Http.

(** GET /proxy, lines 12-28. *)
Definition proxy (fetch : fetcher) (query : req_query)
    : reply * list fetch_call :=
  let targetUrl := query "url" in
  if missing targetUrl then
    (res_json (VObj [("error", VStr "Missing 'url' parameter")]) (res_status 400 res), [])
  else
    let init := [("User-Agent", VStr "Roblox-Proxy")] in
    let trace := [{| target := [Lit (text_of targetUrl)]; init_headers := init |}] in
    let outcome :=
      response <- fetch [Lit (text_of targetUrl)] init ;;
      data <- text response ;;
      Ok (res_send data
            (res_type "application/json"
               (res_set "Access-Control-Allow-Origin" "*" res))) in
    match outcome with
    | Ok r => (r, trace)
    | Throw err =>
        (res_json (VObj [("error", VStr "Failed to fetch data");
                         ("details", VStr (message err))])
                  (res_status 500 res), trace)
    end.

End Proxy.

(** ** Vocabulary of the specification *)
Module Spec.
Import JS Http.

(** The field [p] of a response body, [undefined] when there is none. *)
Definition field (v : value) (p : prop) : value :=
  match v with
  | VObj fields =>
      match lookup (prop_name p) fields with
      | Some x => x
      | None => VUndefined
      end
  | _ => VUndefined
  end.

(** "First non-empty wins": the first candidate that is truthy. *)
Definition first_non_empty (candidates : list value) : option value :=
  find truthy candidates.

(** The three places a next-page cursor is looked for, in order. *)
Definition cursor_candidates (body : value) : list value :=
  [field body nextExclusiveStartId;
   field body nextCursor;
   field (field body meta) nextExclusiveStartId].

(** The reply of a successful aggregation. *)
Definition aggregated (results : list value) : reply :=
  res_json (VObj [("ok", VBool true);
                  ("count", VNum (of_nat (length results)));
                  ("results", VArr results)]) res.

(** A failure reply of the wrapper: a status and an [error] payload, and
    no other field than [ok] and [error]. *)
Definition failure (st : nat) (payload : value) : reply :=
  res_json (VObj [("ok", VBool false); ("error", payload)]) (res_status st res).

(** A reply forwards an upstream response when it has the same status and
    one of its fields is the upstream body. *)
Definition forwards (r : http_response) (rep : reply) : Prop :=
  statusCode rep = status r /\
  exists fields, body rep = Some (Json (VObj fields)) /\
                 lookup "ok" fields = Some (VBool false) /\
                 In (data r) (map snd fields).

(** What can be spread into an argument list, and what it gives: the
    elements of an array, the characters of a string. *)
Definition members (v : value) : option (list value) :=
  match v with
  | VArr xs => Some xs
  | VStr s => Some (map VStr (code_points s))
  | _ => None
  end.

(** The item list of a page body, by the shapes of response that
    src/index.js:264-276 knows: the array under [data]; else the body when
    it is an array itself; else what the first non-empty one of
    [gamePasses] and [items] holds; and no items when both are empty.  A
    body that is [null] or [undefined] has no item list, and neither has
    one whose [gamePasses] or [items] is non-empty without being an array
    or a string. *)
Definition item_list (body : value) : option (list value) :=
  if nullish body then None
  else match field body data_ with
       | VArr xs => Some xs
       | _ =>
           match body with
           | VArr xs => Some xs
           | _ =>
               match first_non_empty [field body gamePasses; field body items] with
               | Some v => members v
               | None => Some []
               end
           end
       end.

(** The message of the TypeError that a body without an item list ends
    the route with. *)
Definition no_list_message (body : value) : string :=
  if nullish body
  then "Cannot read properties of " ++ type_name body ++ " (reading 'data')"
  else "Spread syntax requires ...iterable[Symbol.iterator] to be a function".

(** Upstream page [c] was answered 2xx and its body holds the items [its]. *)
Definition page_items (c : call) (its : list value) : Prop :=
  exists r, got c = Answer r /\ is_2xx (status r) = true /\
            item_list (data r) = Some its.

(** Upstream page [c] was answered 2xx and the handler took the items
    [its] from its body. *)
Definition page_pushed (c : call) (its : list value) : Prop :=
  exists r, got c = Answer r /\ is_2xx (status r) = true /\
            Wrapper.push_items [] (data r) = Ok its.

(** What the wrapper's loop does with the answer to one call. *)
Definition on_call (results : list value) (c : call) : result Wrapper.control :=
  resp <- settle (got c) ;; Wrapper.page results (data resp).

(** The runs of the wrapper's pagination loop from accumulated [results]:
    the calls it makes and how it ends. *)
Inductive pages_run : list value -> list call -> result (list value) -> Prop :=
| run_cap results :
    pages_run results [] (Ok results)
| run_url results err :
    pages_run results [] (Throw err)
| run_throw results c err :
    on_call results c = Throw err ->
    pages_run results [c] (Throw err)
| run_break results c results' :
    on_call results c = Ok (Wrapper.Break results') ->
    pages_run results [c] (Ok results')
| run_continue results c results' next rest res :
    on_call results c = Ok (Wrapper.Continue results' next) ->
    pages_run results' rest res ->
    pages_run results (c :: rest) res.

(** The same for the dotenv generation. *)
Definition on_call_env (results : list value) (c : call) : result WrapperEnv.control :=
  resp <- settle (got c) ;; WrapperEnv.page results (data resp).

(** Environments and upstreams used as examples. *)
Definition no_env : string -> option string := fun _ => None.

Definition num (k : nat) : value := VNum (of_nat k).

(** Every page has one item and a next cursor. *)
Definition endless : upstream :=
  fun k _ _ => Answer {| status := 200;
                         data := VObj [("data", VArr [num k]);
                                       ("nextCursor", VStr "more")] |}.

(** Two pages with a cursor, a third without; item 7 is on both of the
    first two pages. *)
Definition three_pages : upstream :=
  fun k _ _ =>
    if Nat.ltb k 2
    then Answer {| status := 200;
                   data := VObj [("data", VArr [num k; num 7]);
                                 ("nextExclusiveStartId", num (S k))] |}
    else Answer {| status := 200; data := VArr [num 9] |}.

(** Two good pages, then the third call is refused with a body. *)
Definition fails_on_third : upstream :=
  fun k _ _ =>
    if Nat.ltb k 2
    then Answer {| status := 200;
                   data := VObj [("data", VArr [num k; num 7]);
                                 ("nextExclusiveStartId", num (S k))] |}
    else Answer {| status := 503; data := VObj [("message", VStr "busy")] |}.

(** A page with an item and a cursor, then a page whose [gamePasses] is
    a number and that has no cursor. *)
Definition number_for_a_list : upstream :=
  fun k _ _ =>
    if Nat.ltb k 1
    then Answer {| status := 200;
                   data := VObj [("data", VArr [num 0]); ("nextCursor", VStr "more")] |}
    else Answer {| status := 200; data := VObj [("gamePasses", num 5)] |}.

(** Upstream that gives the same answer to every call. *)
Definition always (st : nat) (d : value) : upstream :=
  fun _ _ _ => Answer {| status := st; data := d |}.

(** A query string as Express parses it. *)
Fixpoint query_of (l : list (string * string)) (k : string) : option param :=
  match l with
  | [] => None
  | (k', v) :: rest => if k' =? k then Some (PStr v) else query_of rest k
  end.

(** A fetch that always resolves to the same response. *)
Definition fetch_always (st : nat) (txt : string) : fetcher :=
  fun _ _ => Ok {| fetch_status := st; text := Ok txt;
                   json := Throw (TypeError "Unexpected token") |}.

(** The replies of the validation and configuration checks. *)
Definition must_be_numeric (msg : string) : reply :=
  res_json (VObj [("error", VStr msg)]) (res_status 400 res).

Definition key_not_set : reply :=
  res_json (VObj [("success", VBool false);
                  ("message", VStr "Server Error: ROBLOX_API_KEY environment variable is not set.");
                  ("guide", VStr "Please generate a key on the Creator Dashboard with Game Pass read permissions.")])
           (res_status 500 res).

Definition key_not_set_render : reply :=
  res_json (VObj [("success", VBool false);
                  ("message", VStr "Server Error: ROBLOX_API_KEY environment variable is not set. This endpoint requires an authenticated Open Cloud API Key.");
                  ("guide", VStr "Please generate a key on the Creator Dashboard with Game Pass read permissions and set it on Render.")])
           (res_status 500 res).

Definition parameters_missing : reply :=
  res_json (VObj [("success", VBool false);
                  ("message", VStr "Missing required parameters: userId and gamePassId.")])
           (res_status 400 res).

(** A parameter converts when [String] of it gives a text. *)
Definition converts (v : option param) : Prop := exists s, to_text v = Ok s.


(** The query [rest] with parameter [k] set to [p]. *)
Definition with_param (k : string) (p : param) (rest : req_query) : req_query :=
  fun k' => if k' =? k then Some p else rest k'.

(** The request the proxy sends. *)
Definition proxy_request (query : req_query) : url :=
  [Lit (text_of (query "url"))].

Definition proxy_init : list (string * value) := [("User-Agent", VStr "Roblox-Proxy")].

(** The two ways the fetch of the proxy throws: the request itself, or
    reading the body of the response. *)
Definition fetch_throws (fetch : fetcher) (query : req_query) : Prop :=
  (exists err, fetch (proxy_request query) proxy_init = Throw err)
  \/ (exists resp err, fetch (proxy_request query) proxy_init = Ok resp
                       /\ text resp = Throw err).

End Spec.

(** ** Vocabulary for the properties read off the code *)
Module Cover.
Import JS Http Spec.



(** What can be spread into an argument list. *)
Definition iterable (v : value) : bool :=
  match v with
  | VArr _ | VStr _ => true
  | _ => false
  end.

(** The elements of an array, nothing for anything else. *)
Definition elements (v : option value) : list value :=
  match v with
  | Some (VArr xs) => xs
  | _ => []
  end.


(** The runs of the dotenv generation's pagination loop from accumulated
    [results]: the calls it makes and how it ends. *)
Inductive pages_run_env : list value -> list call -> result (list value) -> Prop :=
| run_env_cap results :
    pages_run_env results [] (Ok results)
| run_env_url results err :
    pages_run_env results [] (Throw err)
| run_env_throw results c err :
    on_call_env results c = Throw err ->
    pages_run_env results [c] (Throw err)
| run_env_break results c results' :
    on_call_env results c = Ok (WrapperEnv.Break results') ->
    pages_run_env results [c] (Ok results')
| run_env_continue results c results' next rest res :
    on_call_env results c = Ok (WrapperEnv.Continue results' next) ->
    pages_run_env results' rest res ->
    pages_run_env results (c :: rest) res.

(** Every page has one item under [items] and a next cursor under [meta]. *)
Definition endless_meta : upstream :=
  fun k _ _ => Answer {| status := 200;
                         data := VObj [("items", VArr [num k]);
                                       ("meta", VObj [("nextExclusiveStartId", num (S k))])] |}.

(** The three verdicts of /api/owns. *)
Definition list_verdict (body : value) (xs : list value) : reply :=
  res_json (VObj [("ok", VBool true); ("owns", VBool (negb (Nat.eqb (length xs) 0)));
                  ("raw", body)]) res.

Definition count_verdict (body count : value) (positive : bool) : reply :=
  res_json (VObj [("ok", VBool true); ("owns", VBool positive); ("count", count);
                  ("raw", body)]) res.

Definition unknown_verdict (body : value) : reply :=
  res_json (VObj [("ok", VBool false); ("owns", VStr "unknown"); ("raw", body)]) res.

(** The count fields of an inventory answer, in the order they are tried. *)
Definition counts (body : value) : list value :=
  [field body totalCount; field body total; field body count].

(** The bytes that end or escape a path segment of a URL: [#], [%], [/],
    [?] and the backslash. *)
Definition breaks_path (c : nat) : bool :=
  existsb (Nat.eqb c) [35; 37; 47; 63; 92].

Abbreviation clean := (Forall (fun c => breaks_path c = false)).

Definition path_safe (s : string) : Prop := clean (bytes s).

(** How often a byte occurs in a string; [=] is 61, [&] is 38, [#] is 35. *)
Definition occurrences (c : nat) (s : string) : nat :=
  count_occ Nat.eq_dec (bytes s) c.

(** 1 for a query parameter that is given, 0 for one that is not. *)
Definition given (v : option param) : nat := if missing v then 0 else 1.

(** The universe URL that list-gamepasses asks for. *)
Definition universe_url (universeId query_string : string) : url :=
  [Lit "https://apis.roblox.com/game-passes/v1/universes/"; Lit universeId;
   Lit "/game-passes?"; Lit query_string].

(** The inventory URL that check-ownership asks for. *)
Definition is_owned_url (userId gamePassId : string) : url :=
  [Lit "https://inventory.roblox.com/v1/users/"; Lit userId; Lit "/items/";
   Lit "GamePass"; Lit "/"; Lit gamePassId; Lit "/is-owned"].

(** A JSON reply with the field [k] set to [v]. *)
Definition carries (rep : reply) (k : string) (v : value) : Prop :=
  exists fields, body rep = Some (Json (VObj fields)) /\ lookup k fields = Some v.

(** How check-ownership answers, by what the fetch came to: a fetch that
    throws, a response outside 2xx (whose body is not read), a 2xx
    response with its text, a 2xx response whose text cannot be read. *)
Definition check_outcome (fetched : result fetch_response) (rep : reply) : Prop :=
  match fetched with
  | Throw err => statusCode rep = 500 /\ carries rep "error" (VStr (message err))
  | Ok resp =>
      if ok resp then
        match text resp with
        | Ok t => statusCode rep = 200
                  /\ carries rep "success" (VBool true)
                  /\ carries rep "isOwned" (VBool (lowercase_is_true t))
        | Throw err => statusCode rep = 500 /\ carries rep "error" (VStr (message err))
        end
      else statusCode rep = fetch_status resp
           /\ carries rep "success" (VBool false)
           /\ carries rep "robloxStatusCode" (VNum (of_nat (fetch_status resp)))
  end.

(** The same for list-gamepasses, which reads the body of a refusal as
    text and the body of a 2xx response as JSON. *)
Definition list_outcome (fetched : result fetch_response) (rep : reply) : Prop :=
  match fetched with
  | Throw err => statusCode rep = 500 /\ carries rep "error" (VStr (message err))
  | Ok resp =>
      if ok resp then
        match json resp with
        | Ok d => statusCode rep = 200
                  /\ carries rep "success" (VBool true) /\ carries rep "data" d
        | Throw err => statusCode rep = 500 /\ carries rep "error" (VStr (message err))
        end
      else
        match text resp with
        | Ok t => statusCode rep = fetch_status resp
                  /\ carries rep "success" (VBool false)
                  /\ carries rep "robloxStatusCode" (VNum (of_nat (fetch_status resp)))
                  /\ carries rep "robloxError" (VStr t)
        | Throw err => statusCode rep = 500 /\ carries rep "error" (VStr (message err))
        end
  end.

(** The handler has sent a reply, and the reply is as [P] says. *)
Definition replied (h : handled) (P : reply -> Prop) : Prop :=
  exists rep, fst h = Ok rep /\ P rep.

(** The four letters of "true", each in either case. *)
Definition spells_true (t : string) : Prop :=
  exists a b c d,
    t = String a (String b (String c (String d EmptyString)))
    /\ (a = "t" \/ a = "T")%char /\ (b = "r" \/ b = "R")%char
    /\ (c = "u" \/ c = "U")%char /\ (d = "e" \/ d = "E")%char.

End Cover.

Import JS Http Spec Cover.

(** ** Property reads *)

Lemma get_field (v : value) (p : prop) :
  nullish v = false -> get v p = Ok (field v p).
Proof.
  destruct v; simpl; try discriminate; try reflexivity.
  intros _. destruct (lookup (prop_name p) fields); reflexivity.
Qed.

Lemma get_ok_not_nullish (v : value) (p : prop) (x : value) :
  get v p = Ok x -> nullish v = false.
Proof. destruct v; simpl; intros H; try discriminate; reflexivity. Qed.

Lemma truthy_not_nullish (v : value) : truthy v = true -> nullish v = false.
Proof. destruct v; simpl; intros H; try discriminate; reflexivity. Qed.

Lemma falsy_field (v : value) (p : prop) :
  truthy v = false -> field v p = VUndefined.
Proof. destruct v; simpl; intros H; try discriminate; reflexivity. Qed.

(** ** The items of a page *)

Lemma push_items_app (results : list value) (body : value) (out : list value) :
  Wrapper.push_items results body = Ok out ->
  exists its, Wrapper.push_items [] body = Ok its /\ out = (results ++ its)%list.
Proof.
  unfold Wrapper.push_items.
  destruct (get body data_) as [d|e]; simpl; [|discriminate].
  destruct (isArray d).
  { destruct (spread d) as [xs|e]; simpl; [|discriminate].
    intros [= <-]. eauto. }
  destruct (isArray body).
  { destruct (spread body) as [xs|e]; simpl; [|discriminate].
    intros [= <-]. eauto. }
  destruct (get body gamePasses) as [gp|e]; simpl; [|discriminate].
  destruct (truthy gp).
  { destruct (spread gp) as [xs|e]; simpl; [|discriminate].
    intros [= <-]. eauto. }
  destruct (get body items) as [it|e]; simpl; [|discriminate].
  destruct (truthy it).
  { destruct (spread it) as [xs|e]; simpl; [|discriminate].
    intros [= <-]. eauto. }
  intros [= <-]. exists []. rewrite app_nil_r. auto.
Qed.

Lemma push_items_from (results : list value) (body : value) (its : list value) :
  Wrapper.push_items [] body = Ok its ->
  Wrapper.push_items results body = Ok (results ++ its)%list.
Proof.
  unfold Wrapper.push_items.
  destruct (get body data_) as [d|e]; simpl; [|discriminate].
  destruct (isArray d).
  { destruct (spread d) as [xs|e]; simpl; [|discriminate]. now intros [= <-]. }
  destruct (isArray body).
  { destruct (spread body) as [xs|e]; simpl; [|discriminate]. now intros [= <-]. }
  destruct (get body gamePasses) as [gp|e]; simpl; [|discriminate].
  destruct (truthy gp).
  { destruct (spread gp) as [xs|e]; simpl; [|discriminate]. now intros [= <-]. }
  destruct (get body items) as [it|e]; simpl; [|discriminate].
  destruct (truthy it).
  { destruct (spread it) as [xs|e]; simpl; [|discriminate]. now intros [= <-]. }
  intros [= <-]. now rewrite app_nil_r.
Qed.

Lemma push_items_not_nullish (results : list value) (body : value) (out : list value) :
  Wrapper.push_items results body = Ok out -> nullish body = false.
Proof.
  unfold Wrapper.push_items.
  destruct (get body data_) as [d|e] eqn:E; simpl; [|discriminate].
  intros _. eapply get_ok_not_nullish; eauto.
Qed.

Lemma push_items_env_not_nullish (results : list value) (body : value) (out : list value) :
  WrapperEnv.push_items results body = Ok out -> nullish body = false.
Proof.
  unfold WrapperEnv.push_items.
  destruct (get body data_) as [d|e] eqn:E; simpl; [|discriminate].
  intros _. eapply get_ok_not_nullish; eauto.
Qed.

(** ** The cursor of the next page *)

Lemma first_non_empty_cases (a b c : value) :
  first_non_empty [a; b; c] =
  if truthy a then Some a
  else if truthy b then Some b
  else if truthy c then Some c
  else None.
Proof. reflexivity. Qed.

Lemma or_Ok (x : value) (b : result value) :
  or_ (Ok x) b = if truthy x then Ok x else b.
Proof. reflexivity. Qed.

Lemma and_Ok (x : value) (b : result value) :
  and_ (Ok x) b = if truthy x then b else Ok x.
Proof. reflexivity. Qed.

(** [body.meta && body.meta.nextExclusiveStartId] *)
Lemma meta_cursor (body : value) :
  nullish body = false ->
  exists c, (get body meta &&& (m <- get body meta ;; get m nextExclusiveStartId)) = Ok c
            /\ truthy c = truthy (field (field body meta) nextExclusiveStartId)
            /\ (truthy c = true -> c = field (field body meta) nextExclusiveStartId).
Proof.
  intros Hb. rewrite !(get_field body) by assumption. rewrite and_Ok. simpl.
  destruct (truthy (field body meta)) eqn:Hm.
  - rewrite get_field by (apply truthy_not_nullish; assumption). eauto.
  - rewrite (falsy_field _ _ Hm). simpl. exists (field body meta).
    repeat split; try assumption. congruence.
Qed.

Ltac settle_or H :=
  repeat first [ rewrite or_Ok | rewrite H | progress cbv iota ].

Lemma nextId_first_non_empty (body : value) :
  nullish body = false ->
  Wrapper.nextId body =
  Ok match first_non_empty (cursor_candidates body) with
     | Some id => id
     | None => VNull
     end.
Proof.
  intros Hb. unfold Wrapper.nextId, cursor_candidates.
  destruct (meta_cursor body Hb) as (c & -> & Hc & Hc').
  rewrite first_non_empty_cases, !(get_field body) by assumption.
  rewrite <- Hc.
  destruct (truthy (field body nextExclusiveStartId)) eqn:Ha;
    [ settle_or Ha; reflexivity | settle_or Ha ].
  destruct (truthy (field body nextCursor)) eqn:Hn;
    [ settle_or Hn; reflexivity | settle_or Hn ].
  destruct (truthy c) eqn:Ht; settle_or Ht.
  - rewrite Hc' by reflexivity. reflexivity.
  - reflexivity.
Qed.

Lemma nextId_env_first_non_empty (body : value) :
  nullish body = false ->
  exists v, WrapperEnv.nextId body = Ok v /\
    match first_non_empty (cursor_candidates body) with
    | Some id => v = id /\ truthy v = true
    | None => truthy v = false
    end.
Proof.
  intros Hb. unfold WrapperEnv.nextId, cursor_candidates.
  destruct (meta_cursor body Hb) as (c & -> & Hc & Hc').
  rewrite first_non_empty_cases, !(get_field body) by assumption.
  rewrite <- Hc.
  destruct (truthy (field body nextExclusiveStartId)) eqn:Ha;
    [ settle_or Ha; eauto | settle_or Ha ].
  destruct (truthy (field body nextCursor)) eqn:Hn;
    [ settle_or Hn; eauto | settle_or Hn ].
  destruct (truthy c) eqn:Ht; settle_or Ht.
  - rewrite <- Hc' by reflexivity. eauto.
  - eauto.
Qed.

(** One page of the wrapper, once its items have been taken. *)
Lemma page_after_push (results results' : list value) (body : value) :
  Wrapper.push_items results body = Ok results' ->
  Wrapper.page results body =
  Ok match first_non_empty (cursor_candidates body) with
     | Some id => Wrapper.Continue results' id
     | None => Wrapper.Break results'
     end.
Proof.
  intros Hpush. unfold Wrapper.page. rewrite Hpush.
  rewrite nextId_first_non_empty by (eapply push_items_not_nullish; eauto).
  destruct (first_non_empty (cursor_candidates body)) as [id|] eqn:F; simpl.
  - apply find_some in F. destruct F as [_ F]. rewrite F. reflexivity.
  - reflexivity.
Qed.

Lemma page_env_after_push (results results' : list value) (body : value) :
  WrapperEnv.push_items results body = Ok results' ->
  WrapperEnv.page results body =
  Ok match first_non_empty (cursor_candidates body) with
     | Some id => WrapperEnv.Continue results' id
     | None => WrapperEnv.Break results'
     end.
Proof.
  intros Hpush. unfold WrapperEnv.page. rewrite Hpush.
  destruct (nextId_env_first_non_empty body) as (v & Hn & Hv).
  { eapply push_items_env_not_nullish; eauto. }
  rewrite Hn.
  destruct (first_non_empty (cursor_candidates body)) as [id|]; simpl.
  - destruct Hv as [Hid Hv]. rewrite Hv, Hid. reflexivity.
  - rewrite Hv. reflexivity.
Qed.

(** C6.  After the items of a page have been taken, the next cursor is the
    first truthy one of [body.nextExclusiveStartId], [body.nextCursor] and
    [body.meta.nextExclusiveStartId], in that order, and the loop goes on
    with it; when none is truthy the loop breaks.  Both generations of the
    wrapper agree on this. *)
Theorem cursor_first_non_empty_wins (results results' : list value) (body : value) :
  (Wrapper.push_items results body = Ok results' ->
   Wrapper.page results body =
   Ok match first_non_empty (cursor_candidates body) with
      | Some id => Wrapper.Continue results' id
      | None => Wrapper.Break results'
      end)
  /\
  (WrapperEnv.push_items results body = Ok results' ->
   WrapperEnv.page results body =
   Ok match first_non_empty (cursor_candidates body) with
      | Some id => WrapperEnv.Continue results' id
      | None => WrapperEnv.Break results'
      end).
Proof.
  split; [apply page_after_push | apply page_env_after_push].
Qed.

Lemma cursor_first_non_empty_wins_witness :
  let body := VObj [("data", VArr [num 1]);
                    ("nextCursor", VStr "b");
                    ("meta", VObj [("nextExclusiveStartId", VStr "c")])] in
  Wrapper.page [] body = Ok (Wrapper.Continue [num 1] (VStr "b"))
  /\ WrapperEnv.page [] body = Ok (WrapperEnv.Continue [num 1] (VStr "b")).
Proof.
  intros body.
  split.
  - apply (proj1 (cursor_first_non_empty_wins [] [num 1] body)). reflexivity.
  - apply (proj2 (cursor_first_non_empty_wins [] [num 1] body)). reflexivity.
Defined.

(** ** Runs of the pagination loop *)

(** One unfolding of the loop, for each generation. *)
Lemma while_0 env up userId results cursor pages trace :
  Wrapper.while env 0 up userId results cursor pages trace =
  if Nat.ltb pages Wrapper.safetyPages then None else Some (Ok results, trace).
Proof. reflexivity. Qed.

Lemma while_S env fuel up userId results cursor pages trace :
  Wrapper.while env (S fuel) up userId results cursor pages trace =
  if Nat.ltb pages Wrapper.safetyPages then
    match template (Wrapper.page_url env userId cursor) with
    | Throw err => Some (Throw err, trace)
    | Ok u =>
        let c := {| sent := u; options := Wrapper.cloudRequestOptions env;
                    got := up (length trace) u (Wrapper.cloudRequestOptions env) |} in
        match on_call results c with
        | Throw err => Some (Throw err, trace ++ [c])%list
        | Ok (Wrapper.Break results') => Some (Ok results', trace ++ [c])%list
        | Ok (Wrapper.Continue results' next) =>
            Wrapper.while env fuel up userId results' next (S pages) (trace ++ [c])%list
        end
    end
  else Some (Ok results, trace).
Proof. reflexivity. Qed.

Lemma while_env_0 env up userId results cursor pages trace :
  WrapperEnv.while env 0 up userId results cursor pages trace =
  if Nat.ltb pages WrapperEnv.safetyPages then None else Some (Ok results, trace).
Proof. reflexivity. Qed.

Lemma while_env_S env fuel up userId results cursor pages trace :
  WrapperEnv.while env (S fuel) up userId results cursor pages trace =
  if Nat.ltb pages WrapperEnv.safetyPages then
    match template (WrapperEnv.page_url userId cursor) with
    | Throw err => Some (Throw err, trace)
    | Ok u =>
        let c := {| sent := u; options := WrapperEnv.cloudRequestOptions env;
                    got := up (length trace) u (WrapperEnv.cloudRequestOptions env) |} in
        match on_call_env results c with
        | Throw err => Some (Throw err, trace ++ [c])%list
        | Ok (WrapperEnv.Break results') => Some (Ok results', trace ++ [c])%list
        | Ok (WrapperEnv.Continue results' next) =>
            WrapperEnv.while env fuel up userId results' next (S pages) (trace ++ [c])%list
        end
    end
  else Some (Ok results, trace).
Proof. reflexivity. Qed.

(** The two loops are the same code around different page handlers, and
    so is the argument that they end: by induction on the fuel, each turn
    either stops or uses up one of the pages left under the cap. *)
Ltac stops_here :=
  eexists _, _; split; [reflexivity | rewrite ?length_app; cbn [length]; lia].

Ltac loop_total fuel unfold_0 unfold_S cap :=
  match goal with
  | |- forall pages results cursor trace, _ =>
      let IH := fresh "IH" in
      induction fuel as [|fuel IH]; intros pages results cursor trace Hfuel;
      [ rewrite unfold_0; destruct (Nat.ltb_spec pages cap); [exfalso; lia | stops_here]
      | rewrite unfold_S; destruct (Nat.ltb_spec pages cap); [| stops_here];
        destruct (template _); [| stops_here];
        cbv zeta;
        match goal with
        | |- context [match ?handled with _ => _ end] =>
            destruct handled as [[? ?|?]|?]
        end;
        [ edestruct (IH (S pages)) as (res & tr & Hrun & Hlen); [lia|];
          exists res, tr; split; [exact Hrun|];
          rewrite length_app in Hlen; cbn [length] in Hlen; lia
        | stops_here
        | stops_here ] ]
  end.

(** With fuel for the pages that remain under the cap the loop ends, and it
    makes at most that many calls. *)
Lemma while_total env up userId fuel :
  forall pages results cursor trace,
    Wrapper.safetyPages - pages <= fuel ->
    exists res tr,
      Wrapper.while env fuel up userId results cursor pages trace = Some (res, tr)
      /\ length tr <= length trace + (Wrapper.safetyPages - pages).
Proof. loop_total fuel while_0 while_S Wrapper.safetyPages. Qed.

Lemma while_env_total env up userId fuel :
  forall pages results cursor trace,
    WrapperEnv.safetyPages - pages <= fuel ->
    exists res tr,
      WrapperEnv.while env fuel up userId results cursor pages trace = Some (res, tr)
      /\ length tr <= length trace + (WrapperEnv.safetyPages - pages).
Proof. loop_total fuel while_env_0 while_env_S WrapperEnv.safetyPages. Qed.

(** C1.  For a numeric userId and any upstream whatever, the route ends
    (the model does not run out of fuel once it has fuel for [safetyPages]
    pages) and has made at most 50 upstream calls.  This holds for both
    generations of the wrapper. *)
Theorem created_gamepasses_at_most_50_calls
    (env : string -> option string) (fuel : nat) (up : upstream) (userId : string) :
  all_digits userId = true ->
  50 <= fuel ->
  (exists rep trace,
      Wrapper.created_gamepasses env fuel up userId = Some (rep, trace)
      /\ length trace <= 50)
  /\
  (exists rep trace,
      WrapperEnv.created_gamepasses env fuel up userId = Some (rep, trace)
      /\ length trace <= 50).
Proof.
  intros Hid Hfuel. split.
  - unfold Wrapper.created_gamepasses. rewrite Hid. cbv [negb].
    destruct (while_total env up userId fuel 0 [] (VStr "") [])
      as (res & tr & Hrun & Hlen).
    { unfold Wrapper.safetyPages. lia. }
    rewrite Hrun. unfold Wrapper.safetyPages in Hlen. simpl in Hlen.
    destruct res; eexists _, _; (split; [reflexivity|exact Hlen]).
  - unfold WrapperEnv.created_gamepasses. rewrite Hid. cbv [negb].
    destruct (while_env_total env up userId fuel 0 [] (VStr "") [])
      as (res & tr & Hrun & Hlen).
    { unfold WrapperEnv.safetyPages. lia. }
    rewrite Hrun. unfold WrapperEnv.safetyPages in Hlen. simpl in Hlen.
    destruct res; eexists _, _; (split; [reflexivity|exact Hlen]).
Qed.

Lemma created_gamepasses_at_most_50_calls_witness :
  (exists rep trace,
      Wrapper.created_gamepasses no_env 50 endless "123" = Some (rep, trace)
      /\ length trace <= 50)
  /\
  (exists rep trace,
      WrapperEnv.created_gamepasses no_env 50 endless "123" = Some (rep, trace)
      /\ length trace <= 50).
Proof.
  apply created_gamepasses_at_most_50_calls; [reflexivity | apply le_n].
Defined.

(** An upstream that always hands out a next cursor is cut off at the cap:
    exactly 50 calls, and the 50 items gathered so far are returned. *)
Example endless_upstream_is_cut_off :
  option_map (fun rt => (statusCode (fst rt), length (snd rt)))
             (Wrapper.created_gamepasses no_env 50 endless "123")
  = Some (200, 50).
Proof. vm_compute. reflexivity. Qed.

(** Every run of the loop is a [pages_run] whose calls extend the trace. *)
Lemma while_run env up userId fuel :
  forall results cursor pages trace res tr,
    Wrapper.while env fuel up userId results cursor pages trace = Some (res, tr) ->
    exists new, tr = (trace ++ new)%list /\ pages_run results new res.
Proof.
  induction fuel as [|fuel IH]; intros results cursor pages trace res tr.
  - rewrite while_0. destruct (Nat.ltb pages Wrapper.safetyPages); [discriminate|].
    intros [= <- <-]. exists []. rewrite app_nil_r. split; [reflexivity|constructor].
  - rewrite while_S. destruct (Nat.ltb pages Wrapper.safetyPages).
    2: { intros [= <- <-]. exists []. rewrite app_nil_r. split; [reflexivity|constructor]. }
    destruct (template _) as [u|err].
    2: { intros [= <- <-]. exists []. rewrite app_nil_r. split; [reflexivity|constructor]. }
    cbv zeta.
    set (c := {| sent := u; options := Wrapper.cloudRequestOptions env;
                 got := up (length trace) u (Wrapper.cloudRequestOptions env) |}).
    destruct (on_call results c) as [[results' next|results']|err] eqn:Hc.
    + intros Hrun. apply IH in Hrun. destruct Hrun as (new & -> & Hnew).
      exists (c :: new). rewrite <- app_assoc. split; [reflexivity|].
      eapply run_continue; eauto.
    + intros [= <- <-]. exists [c]. split; [reflexivity|]. now apply run_break.
    + intros [= <- <-]. exists [c]. split; [reflexivity|]. now apply run_throw.
Qed.

(** ** A failing call ends the run *)

Lemma on_call_rejected results c err :
  settle (got c) = Throw err -> on_call results c = Throw err.
Proof. unfold on_call. now intros ->. Qed.

Lemma pages_run_rejected results new res :
  pages_run results new res ->
  forall k c err,
    nth_error new k = Some c -> settle (got c) = Throw err ->
    res = Throw err /\ length new = S k.
Proof.
  induction 1 as [results|results e|results c e Hc|results c results' Hc
                  |results c results' next rest res Hc Hrest IH];
    intros k c' err Hk Hrej.
  - destruct k; discriminate.
  - destruct k; discriminate.
  - destruct k as [|[|k]]; try discriminate. injection Hk as <-.
    rewrite (on_call_rejected _ _ _ Hrej) in Hc. injection Hc as <-. auto.
  - destruct k as [|[|k]]; try discriminate. injection Hk as <-.
    rewrite (on_call_rejected _ _ _ Hrej) in Hc. discriminate.
  - destruct k as [|k].
    + injection Hk as <-. rewrite (on_call_rejected _ _ _ Hrej) in Hc. discriminate.
    + destruct (IH k c' err Hk Hrej) as [-> Hlen]. simpl. auto.
Qed.

(** What axios rejects with, spelled out. *)
Lemma settle_rejects (o : outcome) (err : error) :
  settle o = Throw err ->
  match o with
  | Answer r =>
      is_2xx (status r) = false /\
      err = {| message := "Request failed with status code " ++ dec (status r);
               response := Some r |}
  | NoAnswer msg => err = {| message := msg; response := None |}
  end.
Proof.
  destruct o as [r|msg]; simpl.
  - destruct (is_2xx (status r)); [discriminate|]. intros [= <-]. auto.
  - intros [= <-]. reflexivity.
Qed.

Lemma request_failed_truthy (n : nat) :
  truthy (VStr ("Request failed with status code " ++ dec n)) = true.
Proof. reflexivity. Qed.

(** C4.  When a call of the pagination is refused by upstream or gets no
    answer, whichever page it is, the reply is one failure and nothing
    else: the upstream status (500 without one), and as [error] the
    upstream body when there is a truthy one, else the error message, else
    "request failed".  The reply has the fields [ok] and [error] only, so
    no item of an earlier page is in it, and the failed call was the last
    one made. *)
Theorem failed_page_discards_results
    (env : string -> option string) (fuel : nat) (up : upstream) (userId : string)
    (rep : reply) (trace : list call) (k : nat) (c : call) (err : error) :
  Wrapper.created_gamepasses env fuel up userId = Some (rep, trace) ->
  nth_error trace k = Some c ->
  settle (got c) = Throw err ->
  length trace = S k /\
  rep = match got c with
        | Answer r =>
            failure (if Nat.eqb (status r) 0 then 500 else status r)
                    (if truthy (data r) then data r
                     else VStr ("Request failed with status code " ++ dec (status r)))
        | NoAnswer msg =>
            failure 500 (if msg =? "" then VStr "request failed" else VStr msg)
        end.
Proof.
  unfold Wrapper.created_gamepasses.
  destruct (all_digits userId); cbv [negb].
  2: { intros [= <- <-] Hk. destruct k; discriminate. }
  destruct (Wrapper.while env fuel up userId [] (VStr "") 0 []) as [[res tr]|] eqn:Hrun;
    [|discriminate].
  apply while_run in Hrun. destruct Hrun as (new & -> & Hnew). simpl.
  intros Hrep Hk Hrej.
  assert (trace = new) as -> by (destruct res; injection Hrep; auto).
  destruct (pages_run_rejected _ _ _ Hnew _ _ _ Hk Hrej) as [-> Hlen].
  injection Hrep as <-. split; [exact Hlen|].
  apply settle_rejects in Hrej.
  unfold Wrapper.created_gamepasses_catch, failure, err_status, err_data, or_else.
  destruct (got c) as [r|msg].
  - destruct Hrej as [_ ->]. cbn [response message].
    destruct (truthy (data r)) eqn:Hd.
    + rewrite Hd. reflexivity.
    + rewrite request_failed_truthy. reflexivity.
  - subst err. cbn [response message]. simpl.
    destruct (msg =? ""); reflexivity.
Qed.

Lemma failed_page_discards_results_witness :
  exists rep trace c,
    Wrapper.created_gamepasses no_env 50 fails_on_third "123" = Some (rep, trace)
    /\ nth_error trace 2 = Some c
    /\ length trace = 3
    /\ rep = failure 503 (VObj [("message", VStr "busy")]).
Proof.
  eexists _, _, _.
  split; [vm_compute; reflexivity|].
  split; [vm_compute; reflexivity|].
  exact (failed_page_discards_results no_env 50 fails_on_third "123" _ _ 2 _ _
           eq_refl eq_refl eq_refl).
Defined.

(** ** A page without a cursor ends the run *)

Lemma on_call_continue results c results' next :
  on_call results c = Ok (Wrapper.Continue results' next) ->
  exists its, page_pushed c its /\ results' = (results ++ its)%list.
Proof.
  unfold on_call, page_pushed. destruct (got c) as [r|msg]; [|discriminate].
  cbn [settle]. destruct (is_2xx (status r)) eqn:H2; [|discriminate].
  cbn [bind]. unfold Wrapper.page.
  destruct (Wrapper.push_items results (data r)) as [out|e] eqn:Hpush; [|discriminate].
  cbn [bind]. destruct (Wrapper.nextId (data r)) as [v|e]; [|discriminate].
  cbn [bind]. destruct (negb (truthy v)); [discriminate|].
  intros [= <- <-].
  apply push_items_app in Hpush. destruct Hpush as (its & Hits & ->).
  exists its. eauto.
Qed.

Lemma on_call_last results c r its :
  got c = Answer r -> is_2xx (status r) = true ->
  Wrapper.push_items [] (data r) = Ok its ->
  first_non_empty (cursor_candidates (data r)) = None ->
  on_call results c = Ok (Wrapper.Break (results ++ its)%list).
Proof.
  intros Hgot H2 Hpush Hnone. unfold on_call. rewrite Hgot. cbn [settle].
  rewrite H2. cbn [bind].
  rewrite (page_after_push _ _ _ (push_items_from results _ _ Hpush)), Hnone.
  reflexivity.
Qed.

Lemma pages_run_last results new res :
  pages_run results new res ->
  forall k c r its,
    nth_error new k = Some c ->
    got c = Answer r -> is_2xx (status r) = true ->
    Wrapper.push_items [] (data r) = Ok its ->
    first_non_empty (cursor_candidates (data r)) = None ->
    length new = S k /\
    exists pages, Forall2 page_pushed new pages /\
                  res = Ok (results ++ concat pages)%list.
Proof.
  induction 1 as [results|results e|results c e Hc|results c results' Hc
                  |results c results' next rest res Hc Hrest IH];
    intros k c' r its Hk Hgot H2 Hpush Hnone.
  - destruct k; discriminate.
  - destruct k; discriminate.
  - destruct k as [|[|k]]; try discriminate. injection Hk as <-.
    rewrite (on_call_last _ _ _ _ Hgot H2 Hpush Hnone) in Hc. discriminate.
  - destruct k as [|[|k]]; try discriminate. injection Hk as <-.
    rewrite (on_call_last _ _ _ _ Hgot H2 Hpush Hnone) in Hc. injection Hc as <-.
    split; [reflexivity|]. exists [its]. split.
    + constructor; [|constructor]. exists r. auto.
    + simpl. rewrite app_nil_r. reflexivity.
  - destruct k as [|k].
    + injection Hk as <-.
      rewrite (on_call_last _ _ _ _ Hgot H2 Hpush Hnone) in Hc. discriminate.
    + destruct (IH k c' r its Hk Hgot H2 Hpush Hnone) as (Hlen & pages & Hpages & ->).
      apply on_call_continue in Hc. destruct Hc as (its0 & Hits0 & ->).
      split; [simpl; auto|]. exists (its0 :: pages). split.
      * constructor; assumption.
      * simpl. rewrite app_assoc. reflexivity.
Qed.

(** *** What the handler takes from a page is its item list *)

Lemma push_items_listed (body : value) :
  Wrapper.push_items [] body =
  match item_list body with
  | Some its => Ok its
  | None => Throw (TypeError (no_list_message body))
  end.
Proof.
  unfold Wrapper.push_items, item_list, no_list_message, first_non_empty.
  destruct (nullish body) eqn:Hn.
  { destruct body; try discriminate Hn; reflexivity. }
  rewrite !(get_field _ _ Hn). cbn [bind find].
  destruct (field body data_) eqn:Hd; cbn [isArray spread bind app];
    try reflexivity;
    (destruct body eqn:Hb; cbn [isArray spread bind app]; try reflexivity;
     try discriminate Hn;
     (destruct (truthy (field _ gamePasses)) eqn:Hg;
      [ destruct (field _ gamePasses); try discriminate Hg; reflexivity
      | destruct (truthy (field _ items)) eqn:Hi;
        [ destruct (field _ items); try discriminate Hi; reflexivity
        | reflexivity ] ])).
Qed.

Lemma page_pushed_items (c : call) (its : list value) :
  page_pushed c its <-> page_items c its.
Proof.
  unfold page_pushed, page_items.
  split; intros (r & Hgot & H2 & H); exists r; (split; [exact Hgot|split; [exact H2|]]).
  - rewrite push_items_listed in H. destruct (item_list (data r)); congruence.
  - rewrite push_items_listed, H. reflexivity.
Qed.

Lemma pages_pushed_items (calls : list call) (pages : list (list value)) :
  Forall2 page_pushed calls pages -> Forall2 page_items calls pages.
Proof.
  induction 1; constructor; [now apply page_pushed_items | assumption].
Qed.

Lemma on_call_no_list results c r :
  got c = Answer r -> is_2xx (status r) = true ->
  item_list (data r) = None ->
  on_call results c = Throw (TypeError (no_list_message (data r))).
Proof.
  intros Hgot H2 Hnone. unfold on_call. rewrite Hgot. cbn [settle].
  rewrite H2. cbn [bind]. unfold Wrapper.page.
  destruct (Wrapper.push_items results (data r)) as [out|e] eqn:Hpush.
  - apply push_items_app in Hpush. destruct Hpush as (its & Hits & _).
    rewrite push_items_listed, Hnone in Hits. discriminate.
  - assert (Wrapper.push_items [] (data r) = Throw e) as H0.
    { destruct (Wrapper.push_items [] (data r)) as [its|e0] eqn:H0.
      - apply (push_items_from results) in H0. congruence.
      - f_equal. revert Hpush H0. unfold Wrapper.push_items.
        destruct (get (data r) data_) as [d|e1]; cbn [bind]; [|congruence].
        destruct (isArray d).
        { destruct (spread d); cbn [bind]; congruence. }
        destruct (isArray (data r)).
        { destruct (spread (data r)); cbn [bind]; congruence. }
        destruct (get (data r) gamePasses) as [gp|e1]; cbn [bind]; [|congruence].
        destruct (truthy gp).
        { destruct (spread gp); cbn [bind]; congruence. }
        destruct (get (data r) items) as [it|e1]; cbn [bind]; [|congruence].
        destruct (truthy it).
        { destruct (spread it); cbn [bind]; congruence. }
        congruence. }
    rewrite push_items_listed, Hnone in H0. injection H0 as <-.
    reflexivity.
Qed.

Lemma pages_run_thrown results new res :
  pages_run results new res ->
  forall k c err,
    nth_error new k = Some c -> (forall rs, on_call rs c = Throw err) ->
    res = Throw err /\ length new = S k.
Proof.
  induction 1 as [results|results e|results c e Hc|results c results' Hc
                  |results c results' next rest res Hc Hrest IH];
    intros k c' err Hk Hthrow.
  - destruct k; discriminate.
  - destruct k; discriminate.
  - destruct k as [|[|k]]; try discriminate. injection Hk as <-.
    rewrite Hthrow in Hc. injection Hc as <-. auto.
  - destruct k as [|[|k]]; try discriminate. injection Hk as <-.
    rewrite Hthrow in Hc. discriminate.
  - destruct k as [|k].
    + injection Hk as <-. rewrite Hthrow in Hc. discriminate.
    + destruct (IH k c' err Hk Hthrow) as [-> Hlen]. simpl. auto.
Qed.

(** C5.  In a run where upstream page [k+1] is answered 2xx without a next
    cursor, that page is the last call made.  When its body has an item
    list, every page requested had one and the reply carries the
    concatenation of those lists in the order of the requests, items
    repeated across pages included.  When its body has none ([null], or a
    [gamePasses] or [items] that is a number, [true] or an object), the
    spread throws and the reply is a failure 500 with the TypeError
    message: the items of the pages before are not returned. *)
Theorem no_cursor_ends_with_concatenation
    (env : string -> option string) (fuel : nat) (up : upstream) (userId : string)
    (rep : reply) (trace : list call) (k : nat) (c : call) (r : http_response) :
  Wrapper.created_gamepasses env fuel up userId = Some (rep, trace) ->
  nth_error trace k = Some c ->
  got c = Answer r -> is_2xx (status r) = true ->
  first_non_empty (cursor_candidates (data r)) = None ->
  length trace = S k /\
  match item_list (data r) with
  | Some _ =>
      exists pages, Forall2 page_items trace pages /\ rep = aggregated (concat pages)
  | None => rep = failure 500 (VStr (no_list_message (data r)))
  end.
Proof.
  unfold Wrapper.created_gamepasses.
  destruct (all_digits userId); cbv [negb].
  2: { intros [= <- <-] Hk. destruct k; discriminate. }
  destruct (Wrapper.while env fuel up userId [] (VStr "") 0 []) as [[res tr]|] eqn:Hrun;
    [|discriminate].
  apply while_run in Hrun. destruct Hrun as (new & -> & Hnew). simpl.
  intros Hrep Hk Hgot H2 Hnone.
  assert (trace = new) as -> by (destruct res; injection Hrep; auto).
  destruct (item_list (data r)) as [its|] eqn:Hits.
  - assert (Wrapper.push_items [] (data r) = Ok its) as Hpush
        by (rewrite push_items_listed, Hits; reflexivity).
    destruct (pages_run_last _ _ _ Hnew _ _ _ _ Hk Hgot H2 Hpush Hnone)
      as (Hlen & pages & Hpages & ->).
    injection Hrep as <-. split; [exact Hlen|]. exists pages.
    split; [now apply pages_pushed_items|reflexivity].
  - destruct (pages_run_thrown _ _ _ Hnew k c _ Hk
                (fun rs => on_call_no_list rs c r Hgot H2 Hits)) as [-> Hlen].
    injection Hrep as <-. split; [exact Hlen|].
    unfold no_list_message. destruct (nullish (data r)); reflexivity.
Qed.

Lemma no_cursor_ends_with_concatenation_witness :
  exists rep trace,
    Wrapper.created_gamepasses no_env 50 number_for_a_list "123" = Some (rep, trace)
    /\ length trace = 2
    /\ rep = failure 500
               (VStr "Spread syntax requires ...iterable[Symbol.iterator] to be a function").
Proof.
  eexists _, _.
  split; [vm_compute; reflexivity|].
  exact (no_cursor_ends_with_concatenation no_env 50 number_for_a_list "123" _ _ 1 _
           {| status := 200; data := VObj [("gamePasses", num 5)] |}
           eq_refl eq_refl eq_refl eq_refl eq_refl).
Defined.

(** The same run in the dotenv generation, which spreads arrays only: the
    second page adds nothing and the item of the first page is returned. *)
Example env_takes_a_number_for_no_list :
  option_map fst (WrapperEnv.created_gamepasses no_env 50 number_for_a_list "123")
  = Some (aggregated [num 0]).
Proof. vm_compute. reflexivity. Qed.

(** A run whose pages all have item lists. *)
Example three_pages_are_concatenated :
  exists rep trace,
    Wrapper.created_gamepasses no_env 50 three_pages "123" = Some (rep, trace)
    /\ length trace = 3
    /\ exists pages, Forall2 page_items trace pages /\ rep = aggregated (concat pages).
Proof.
  eexists _, _. split; [vm_compute; reflexivity|]. split; [reflexivity|].
  exists [[num 0; num 7]; [num 1; num 7]; [num 9]].
  split; [|reflexivity].
  repeat constructor; eexists; (split; [reflexivity|split; reflexivity]).
Qed.

(** The run of [three_pages], computed: item 7 is on two pages and is
    returned twice. *)
Example three_pages_keeps_duplicates :
  option_map fst (Wrapper.created_gamepasses no_env 50 three_pages "123")
  = Some (aggregated [num 0; num 7; num 1; num 7; num 9]).
Proof. vm_compute. reflexivity. Qed.

(** ** The ownership verdict *)

(** The verdict replies of /api/owns. *)
Lemma owns_verdict_list (body : value) (xs : list value) :
  truthy body = true -> field body data_ = VArr xs ->
  Wrapper.owns_verdict body =
  Ok (res_json (VObj [("ok", VBool true);
                      ("owns", VBool (negb (Nat.eqb (length xs) 0)));
                      ("raw", body)]) res).
Proof.
  intros Hb Hd. unfold Wrapper.owns_verdict.
  rewrite and_Ok, Hb, !get_field, Hd by (apply truthy_not_nullish; assumption).
  simpl. destruct xs; reflexivity.
Qed.

Lemma owns_verdict_no_count (body : value) :
  isArray (field body data_) = false ->
  truthy (field body totalCount) = false ->
  truthy (field body total) = false ->
  truthy (field body count) = false ->
  Wrapper.owns_verdict body =
  Ok (res_json (VObj [("ok", VBool false); ("owns", VStr "unknown"); ("raw", body)]) res).
Proof.
  intros Hd H1 H2 H3. unfold Wrapper.owns_verdict.
  rewrite !and_Ok. destruct (truthy body) eqn:Hb.
  - rewrite !get_field by (apply truthy_not_nullish; assumption).
    cbn [bind]. rewrite Hd. cbn [bind truthy].
    settle_or H1. settle_or H2. settle_or H3. cbn [bind]. rewrite H3. reflexivity.
  - cbn [bind]. rewrite Hb. reflexivity.
Qed.

(** C2, at the input where the code departs from it.  A body whose only
    field is [totalCount: 0] passes for "no count at all": the guard
    [body.totalCount || body.total || body.count] is falsy, and both
    generations answer [owns: "unknown"] where the claim has [owns: false]. *)
Theorem owns_zero_count_is_unknown :
  let body := VObj [("totalCount", num 0)] in
  let unknown := res_json (VObj [("ok", VBool false); ("owns", VStr "unknown");
                                 ("raw", body)]) res in
  fst (Wrapper.owns (always 200 body) "1" "2") = unknown
  /\ fst (WrapperEnv.owns (always 200 body) "1" "2") = unknown.
Proof. split; vm_compute; reflexivity. Qed.

(** The rest of the priority is as claimed: a [data] list decides by its
    length, a positive count gives [owns: true]. *)
Example owns_data_list_and_positive_count :
  fst (Wrapper.owns (always 200 (VObj [("data", VArr [])])) "1" "2")
  = res_json (VObj [("ok", VBool true); ("owns", VBool false);
                    ("raw", VObj [("data", VArr [])])]) res
  /\ fst (Wrapper.owns (always 200 (VObj [("data", VArr [VObj []])])) "1" "2")
     = res_json (VObj [("ok", VBool true); ("owns", VBool true);
                       ("raw", VObj [("data", VArr [VObj []])])]) res
  /\ fst (Wrapper.owns (always 200 (VObj [("total", num 3)])) "1" "2")
     = res_json (VObj [("ok", VBool true); ("owns", VBool true); ("count", num 3);
                       ("raw", VObj [("total", num 3)])]) res.
Proof. repeat split; vm_compute; reflexivity. Qed.

(** ** Item extraction that throws *)

(** C3, at inputs where the code departs from it.  In the wrapper of
    src/index.js:264-276 a truthy [gamePasses] that is not iterable makes
    the spread throw, and the route answers 500; the dotenv generation
    guards the same field with [Array.isArray] and yields no items.  A
    [null] body throws in both, at [body.data]. *)
Theorem push_items_throws_on_non_iterable :
  let body := VObj [("gamePasses", num 5)] in
  Wrapper.push_items [] body
  = Throw (TypeError "Spread syntax requires ...iterable[Symbol.iterator] to be a function")
  /\ option_map fst (Wrapper.created_gamepasses no_env 50 (always 200 body) "1")
     = Some (failure 500 (VStr "Spread syntax requires ...iterable[Symbol.iterator] to be a function"))
  /\ WrapperEnv.push_items [] body = Ok []
  /\ Wrapper.push_items [] VNull
     = Throw (TypeError "Cannot read properties of null (reading 'data')")
  /\ WrapperEnv.push_items [] VNull
     = Throw (TypeError "Cannot read properties of null (reading 'data')").
Proof. repeat split; vm_compute; reflexivity. Qed.

(** Where nothing throws, the order of the attempts is the claimed one. *)
Example push_items_order :
  Wrapper.push_items [] (VObj [("data", VArr [num 1]); ("gamePasses", VArr [num 2]);
                               ("items", VArr [num 3])]) = Ok [num 1]
  /\ Wrapper.push_items [] (VArr [num 4]) = Ok [num 4]
  /\ Wrapper.push_items [] (VObj [("gamePasses", VArr [num 2]); ("items", VArr [num 3])])
     = Ok [num 2]
  /\ Wrapper.push_items [] (VObj [("items", VArr [num 3])]) = Ok [num 3]
  /\ Wrapper.push_items [] (VObj [("other", VArr [num 5])]) = Ok [].
Proof. repeat split; reflexivity. Qed.

(** ** Upstream refusals of the ownership call *)

(** C7 as stated fails: upstream refuses with status 500 and an empty
    body; the reply has the status, but its [error] is the axios message,
    and no field of it is the upstream body. *)
Lemma owns_empty_body_not_forwarded :
  let r := {| status := 500; data := VStr "" |} in
  fst (Wrapper.owns (always 500 (VStr "")) "1" "2")
  = failure 500 (VStr "Request failed with status code 500")
  /\ ~ forwards r (fst (Wrapper.owns (always 500 (VStr "")) "1" "2")).
Proof.
  split; [vm_compute; reflexivity|].
  intros (_ & fields & Hbody & _ & Hin). vm_compute in Hbody.
  injection Hbody as <-. simpl in Hin.
  destruct Hin as [H|[H|[]]]; discriminate.
Qed.

Lemma owns_catch_refused (r : http_response) :
  is_2xx (status r) = false -> status r <> 0 -> status r <> 404 ->
  let err := {| message := "Request failed with status code " ++ dec (status r);
                response := Some r |} in
  let rep := failure (status r)
               (if truthy (data r) then data r
                else VStr ("Request failed with status code " ++ dec (status r))) in
  Wrapper.owns_catch err = rep /\ WrapperEnv.owns_catch err = rep.
Proof.
  intros H2 H0 H404.
  unfold Wrapper.owns_catch, WrapperEnv.owns_catch, WrapperEnv.route_catch,
    failure, err_status, err_data, or_else.
  cbn [response message].
  destruct (Nat.eqb_spec (status r) 404) as [|_]; [contradiction|].
  destruct (Nat.eqb_spec (status r) 0) as [|_]; [contradiction|].
  destruct (truthy (data r)) eqn:Hd.
  - rewrite Hd. split; reflexivity.
  - rewrite request_failed_truthy. split; reflexivity.
Qed.

(** C7, amended.  When upstream answers the ownership call with 404, both
    generations reply 200 with [ok: true, owns: false].  Any other status
    outside 2xx is forwarded as a failure with that status, whose [error]
    is the upstream body when that body is truthy, and the axios message
    "Request failed with status code N" when it is not. *)
Theorem owns_404_is_false_others_forwarded
    (up : upstream) (userId gamePassId : string) (r : http_response) :
  all_digits userId = true -> all_digits gamePassId = true ->
  (forall u cfg, up 0 u cfg = Answer r) ->
  is_2xx (status r) = false -> status r <> 0 ->
  let rep :=
    if Nat.eqb (status r) 404
    then res_json (VObj [("ok", VBool true); ("owns", VBool false)]) res
    else failure (status r)
           (if truthy (data r) then data r
            else VStr ("Request failed with status code " ++ dec (status r))) in
  fst (Wrapper.owns up userId gamePassId) = rep
  /\ fst (WrapperEnv.owns up userId gamePassId) = rep.
Proof.
  intros Hu Hg Hup H2 H0 rep.
  unfold Wrapper.owns, WrapperEnv.owns. rewrite Hu, Hg, !Hup. cbn [negb orb settle].
  rewrite H2. cbn [bind fst]. subst rep.
  destruct (Nat.eqb_spec (status r) 404) as [E|N].
  - unfold Wrapper.owns_catch, WrapperEnv.owns_catch, err_status. cbn [response].
    rewrite E. split; reflexivity.
  - apply owns_catch_refused; assumption.
Qed.

Lemma owns_404_is_false_others_forwarded_witness :
  fst (Wrapper.owns (always 404 (VStr "")) "1" "2")
  = res_json (VObj [("ok", VBool true); ("owns", VBool false)]) res
  /\ fst (WrapperEnv.owns (always 403 (VObj [("errors", VArr [])])) "1" "2")
     = failure 403 (VObj [("errors", VArr [])]).
Proof.
  split.
  - apply (owns_404_is_false_others_forwarded
             (always 404 (VStr "")) "1" "2" {| status := 404; data := VStr "" |});
      try reflexivity.
    discriminate.
  - apply (owns_404_is_false_others_forwarded
             (always 403 (VObj [("errors", VArr [])])) "1" "2"
             {| status := 403; data := VObj [("errors", VArr [])] |});
      try reflexivity.
    discriminate.
Defined.

(** ** Validation of identifiers *)

(** C8 as stated fails on /api/v1/check-ownership: "1.5" does not match
    [^\d+$], yet it is a number to [isNaN], the request is accepted and
    upstream is called. *)
Lemma check_ownership_accepts_decimal :
  let run := Api.check_ownership "2024-01-01T00:00:00.000Z" (fetch_always 200 "true")
               (query_of [("userId", "1.5"); ("gamePassId", "2")]) in
  all_digits "1.5" = false
  /\ status_sent run = Some 200
  /\ length (snd run) = 1.
Proof. repeat split; vm_compute; reflexivity. Qed.

(** C8, amended.  The two routes of the wrapper, in both generations,
    answer 400 without calling upstream whenever userId (or gamePassId)
    is not made of decimal digits only.  /api/v1/check-ownership of
    src/index.js:55-112 answers 400 without calling upstream whenever
    either parameter is missing or empty, and whenever [isNaN] returns
    true for one of two parameters that both convert to a number; that
    test lets through numeric strings outside [^\d+$].  The generations of
    that route without the [isNaN] test (src/index.js:468-510 and
    src/unnamed/part_001:18-60) answer 400 without calling upstream
    whenever either parameter is missing or empty.  (A parameter on which
    the conversion itself throws is left aside here.) *)
Theorem invalid_identifier_rejected_before_upstream :
  (forall env fuel up userId,
      all_digits userId = false ->
      Wrapper.created_gamepasses env fuel up userId
      = Some (must_be_numeric "userId must be numeric", [])
      /\ WrapperEnv.created_gamepasses env fuel up userId
         = Some (must_be_numeric "userId must be numeric", []))
  /\
  (forall up userId gamePassId,
      all_digits userId = false \/ all_digits gamePassId = false ->
      Wrapper.owns up userId gamePassId
      = (must_be_numeric "userId and gamePassId must be numeric", [])
      /\ WrapperEnv.owns up userId gamePassId
         = (must_be_numeric "userId and gamePassId must be numeric", []))
  /\
  (forall now fetch query,
      missing (query "userId") = true \/ missing (query "gamePassId") = true
      \/ (exists a b, isNaN_of (query "userId") = Ok a
                      /\ isNaN_of (query "gamePassId") = Ok b
                      /\ a || b = true) ->
      status_sent (Api.check_ownership now fetch query) = Some 400
      /\ snd (Api.check_ownership now fetch query) = [])
  /\
  (forall fetch query,
      missing (query "userId") = true \/ missing (query "gamePassId") = true ->
      ApiRender.check_ownership fetch query = (Ok parameters_missing, [])
      /\ Keyless.check_ownership fetch query = (Ok parameters_missing, [])).
Proof.
  split; [|split; [|split]].
  - intros env fuel up userId H.
    unfold Wrapper.created_gamepasses, WrapperEnv.created_gamepasses.
    rewrite H. split; reflexivity.
  - intros up userId gamePassId H. unfold Wrapper.owns, WrapperEnv.owns.
    destruct H as [H|H]; rewrite H; cbn [negb orb].
    + split; reflexivity.
    + rewrite orb_true_r. split; reflexivity.
  - intros now fetch query H. unfold Api.check_ownership.
    destruct (missing (query "userId") || missing (query "gamePassId")) eqn:Hm.
    { split; reflexivity. }
    apply orb_false_elim in Hm. destruct Hm as [Hm1 Hm2].
    destruct H as [H|[H|(a & b & Ha & Hb & Hab)]]; [congruence|congruence|].
    rewrite Ha. cbn [bind]. destruct a.
    + split; reflexivity.
    + rewrite Hb. cbn [orb] in Hab. subst b. split; reflexivity.
  - intros fetch query H.
    unfold ApiRender.check_ownership, Keyless.check_ownership.
    destruct H as [H|H]; rewrite H; rewrite ?orb_true_r; split; reflexivity.
Qed.

Lemma invalid_identifier_rejected_before_upstream_witness :
  Wrapper.created_gamepasses no_env 50 endless "abc"
  = Some (must_be_numeric "userId must be numeric", [])
  /\ Wrapper.owns endless "12" "1.5"
     = (must_be_numeric "userId and gamePassId must be numeric", [])
  /\ (status_sent (Api.check_ownership "" (fetch_always 200 "true")
                     (query_of [("userId", "abc"); ("gamePassId", "2")])) = Some 400
      /\ snd (Api.check_ownership "" (fetch_always 200 "true")
                (query_of [("userId", "abc"); ("gamePassId", "2")])) = []).
Proof.
  split; [|split].
  - apply (proj1 invalid_identifier_rejected_before_upstream no_env 50 endless "abc").
    reflexivity.
  - apply (proj1 (proj2 invalid_identifier_rejected_before_upstream) endless "12" "1.5").
    right. reflexivity.
  - apply (proj1 (proj2 (proj2 invalid_identifier_rejected_before_upstream)) ""
             (fetch_always 200 "true")
             (query_of [("userId", "abc"); ("gamePassId", "2")])).
    right. right. exists true, false. repeat split; reflexivity.
Defined.

(** The keyless generation checks presence only: "abc" goes upstream. *)
Example keyless_check_ownership_forwards_anything :
  length (snd (Keyless.check_ownership (fetch_always 200 "false")
                 (query_of [("userId", "abc"); ("gamePassId", "2")]))) = 1.
Proof. reflexivity. Qed.

(** ** The API key *)

(** C9 as stated fails: without an API key, a call that also lacks
    universeId is answered 400, not 500, because the parameters are checked
    first; and the keyless generation, which reads no key, calls upstream. *)
Lemma list_gamepasses_validates_before_key :
  unset (no_env "ROBLOX_API_KEY") = true
  /\ status_sent (Api.list_gamepasses no_env "" (fetch_always 200 "{}")
                    (query_of [])) = Some 400
  /\ length (snd (Keyless.list_gamepasses (fetch_always 200 "{}")
                    (query_of [("universeId", "12")]))) = 1.
Proof. repeat split; reflexivity. Qed.

Lemma append_if_converts k v params :
  converts v -> exists s, append_if k v params = Ok (if missing v then params
                                                     else (params ++ [(k, s)])%list).
Proof.
  intros [s Hs]. exists s. unfold append_if. rewrite Hs.
  destruct (missing v); reflexivity.
Qed.

(** C9, amended.  When ROBLOX_API_KEY is unset or empty, no call to
    list-gamepasses in the key-checking generations (src/index.js:115-187
    and 512-573) reaches upstream.  In 512-573 a call with universeId
    present is answered 500 with the guidance text, and any other call is
    answered 400.  In 115-187, where the universeId is also tested with
    [isNaN] before the key is looked at, a call whose universeId is
    present and a number is answered 500 with the guidance text, and a
    call whose universeId is missing or for which [isNaN] returns true is
    answered 400.  The keyless generation (src/unnamed/part_001:69-118)
    reads no key and makes its upstream call whenever universeId is
    present and the four parameters convert to strings. *)
Theorem list_gamepasses_needs_key
    (env : string -> option string) (now : string) (fetch : fetcher)
    (query : req_query) :
  unset (env "ROBLOX_API_KEY") = true ->
  (snd (Api.list_gamepasses env now fetch query) = []
   /\ (missing (query "universeId") = true \/ isNaN_of (query "universeId") = Ok true ->
       status_sent (Api.list_gamepasses env now fetch query) = Some 400)
   /\ (missing (query "universeId") = false ->
       isNaN_of (query "universeId") = Ok false ->
       fst (Api.list_gamepasses env now fetch query) = Ok key_not_set))
  /\
  (snd (ApiRender.list_gamepasses env fetch query) = []
   /\ if missing (query "universeId")
      then status_sent (ApiRender.list_gamepasses env fetch query) = Some 400
      else fst (ApiRender.list_gamepasses env fetch query) = Ok key_not_set_render)
  /\
  (missing (query "universeId") = false ->
   converts (query "universeId") -> converts (query "passView") ->
   converts (query "pageSize") -> converts (query "pageToken") ->
   length (snd (Keyless.list_gamepasses fetch query)) = 1).
Proof.
  intros Hkey. split; [|split].
  - unfold Api.list_gamepasses, Api.ROBLOX_API_KEY.
    destruct (missing (query "universeId")) eqn:Hm.
    { split; [reflexivity|]. split; [reflexivity|discriminate]. }
    destruct (isNaN_of (query "universeId")) as [[|]|err] eqn:Hn.
    + split; [reflexivity|]. split; [reflexivity|discriminate].
    + rewrite Hkey. split; [reflexivity|].
      split; [intros [H|H]; discriminate|reflexivity].
    + split; [reflexivity|]. split; [intros [H|H]; discriminate|discriminate].
  - unfold ApiRender.list_gamepasses, ApiRender.ROBLOX_API_KEY.
    destruct (missing (query "universeId")); [split; reflexivity|].
    rewrite Hkey. split; reflexivity.
  - intros Hu [u Cu] Cv Cs Ct. unfold Keyless.list_gamepasses. rewrite Hu.
    destruct (append_if_converts "passView" _ [] Cv) as [s1 ->]. cbn [bind].
    destruct (append_if_converts "pageSize" _
                (if missing (query "passView") then []
                 else ([] ++ [("passView", s1)])%list) Cs) as [s2 ->]. cbn [bind].
    match goal with
    | |- context [append_if "pageToken" ?v ?ps] =>
        destruct (append_if_converts "pageToken" v ps Ct) as [s3 ->]
    end.
    cbn [bind]. rewrite Cu. cbn [bind].
    destruct (_ <- fetch _ _ ;; _); reflexivity.
Qed.

Lemma list_gamepasses_needs_key_witness :
  snd (Api.list_gamepasses no_env "" (fetch_always 200 "{}")
         (query_of [("universeId", "12")])) = []
  /\ fst (Api.list_gamepasses no_env "" (fetch_always 200 "{}")
            (query_of [("universeId", "12")])) = Ok key_not_set.
Proof.
  destruct (proj1 (list_gamepasses_needs_key no_env "" (fetch_always 200 "{}")
                     (query_of [("universeId", "12")]) eq_refl)) as (H1 & _ & H3).
  split; [exact H1|]. apply H3; reflexivity.
Defined.

(** The keyless generation of src/unnamed/part_001 sends no key. *)
Example keyless_list_gamepasses_calls_upstream :
  snd (Keyless.list_gamepasses (fetch_always 200 "{}") (query_of [("universeId", "12")]))
  = [{| target := [Lit "https://apis.roblox.com/game-passes/v1/universes/";
                   Lit "12"; Lit "/game-passes?"; Lit ""];
        init_headers := [] |}].
Proof. reflexivity. Qed.

(** ** The URL forwarder *)

(** C10.  The proxy answers 400 exactly when the [url] parameter is missing
    or empty, 500 exactly when the fetch throws, and otherwise, whatever
    status the upstream response has, 200 with the upstream body text as
    content of type application/json.  No other status is ever sent. *)
Theorem proxy_never_forwards_status
    (fetch : fetcher) (query : req_query) :
  let rep := fst (Proxy.proxy fetch query) in
  (statusCode rep = 400 <-> missing (query "url") = true)
  /\ (statusCode rep = 500 <-> missing (query "url") = false /\ fetch_throws fetch query)
  /\ (forall resp data,
         missing (query "url") = false ->
         fetch (proxy_request query) proxy_init = Ok resp ->
         text resp = Ok data ->
         rep = {| statusCode := 200;
                  sent_headers := [("Access-Control-Allow-Origin", "*");
                                   ("Content-Type", "application/json")];
                  body := Some (Text data) |}).
Proof.
  unfold Proxy.proxy, fetch_throws, proxy_request, proxy_init.
  destruct (missing (query "url")) eqn:Hm; cbn [fst].
  { split; [split; reflexivity|].
    split; [split; [discriminate | intros [H _]; discriminate]|].
    intros resp data H. discriminate. }
  destruct (fetch [Lit (text_of (query "url"))] [("User-Agent", VStr "Roblox-Proxy")])
    as [resp|err] eqn:Hf; cbn [bind fst].
  - destruct (text resp) as [data|err] eqn:Ht; cbn [fst].
    + split; [split; discriminate|]. split.
      * split; [discriminate|].
        intros [_ [[err H]|(resp' & err & H & Ht')]]; [discriminate|].
        injection H as <-. congruence.
      * intros resp' data' _ [= <-] Ht'. rewrite Ht in Ht'. injection Ht' as <-.
        reflexivity.
    + split; [split; discriminate|]. split.
      * split; [|reflexivity]. intros _. split; [reflexivity|]. right. eauto.
      * intros resp' data' _ [= <-] Ht'. congruence.
  - split; [split; discriminate|]. split.
    + split; [|reflexivity]. intros _. split; [reflexivity|]. left. eauto.
    + intros resp data _ H. discriminate.
Qed.

Lemma proxy_never_forwards_status_witness :
  fst (Proxy.proxy (fetch_always 404 "not found") (query_of [("url", "https://x.test/a")]))
  = {| statusCode := 200;
       sent_headers := [("Access-Control-Allow-Origin", "*");
                        ("Content-Type", "application/json")];
       body := Some (Text "not found") |}.
Proof.
  apply (proj2 (proj2 (proxy_never_forwards_status (fetch_always 404 "not found")
                         (query_of [("url", "https://x.test/a")])))
           {| fetch_status := 404; text := Ok "not found";
              json := Throw (TypeError "Unexpected token") |} "not found");
    reflexivity.
Defined.

(** * Further properties of the handlers *)

(** ** The requests of the pagination *)






(** ** The page cap *)

Lemma on_call_answered results c r its :
  got c = Answer r -> is_2xx (status r) = true ->
  Wrapper.push_items [] (data r) = Ok its ->
  on_call results c =
  Ok match first_non_empty (cursor_candidates (data r)) with
     | Some id => Wrapper.Continue (results ++ its)%list id
     | None => Wrapper.Break (results ++ its)%list
     end.
Proof.
  intros Hgot H2 Hpush. unfold on_call. rewrite Hgot. cbn [settle].
  rewrite H2. cbn [bind].
  apply page_after_push, push_items_from, Hpush.
Qed.

Lemma while_at_cap env up userId fuel results cursor trace res tr :
  Wrapper.while env fuel up userId results cursor Wrapper.safetyPages trace
  = Some (res, tr) ->
  res = Ok results /\ tr = trace.
Proof.
  destruct fuel; [rewrite while_0 | rewrite while_S];
    change (Nat.ltb Wrapper.safetyPages Wrapper.safetyPages) with false;
    intros [= <- <-]; auto.
Qed.

Lemma while_last_page env up userId fuel :
  forall results cursor pages trace res tr,
    Wrapper.while env fuel up userId results cursor pages trace = Some (res, tr) ->
    exists new, tr = (trace ++ new)%list /\
      forall j c r its,
        nth_error new j = Some c -> S (pages + j) = Wrapper.safetyPages ->
        got c = Answer r -> is_2xx (status r) = true ->
        Wrapper.push_items [] (data r) = Ok its ->
        length new = S j /\
        exists pages_items, Forall2 page_pushed new pages_items
                            /\ res = Ok (results ++ concat pages_items)%list.
Proof.
  induction fuel as [|fuel IH]; intros results cursor pages trace res tr.
  - rewrite while_0. destruct (Nat.ltb pages Wrapper.safetyPages); [discriminate|].
    intros [= <- <-]. exists []. rewrite app_nil_r. split; [reflexivity|].
    intros [|j]; discriminate.
  - rewrite while_S. destruct (Nat.ltb pages Wrapper.safetyPages).
    2: { intros [= <- <-]. exists []. rewrite app_nil_r. split; [reflexivity|].
         intros [|j]; discriminate. }
    destruct (template _) as [u|err].
    2: { intros [= <- <-]. exists []. rewrite app_nil_r. split; [reflexivity|].
         intros [|j]; discriminate. }
    cbv zeta.
    set (c0 := {| sent := u; options := Wrapper.cloudRequestOptions env;
                  got := up (length trace) u (Wrapper.cloudRequestOptions env) |}).
    destruct (on_call results c0) as [[results' next|results']|err] eqn:Hc.
    + intros Hrun. destruct (IH _ _ _ _ _ _ Hrun) as (new & Htr & Hnew).
      exists (c0 :: new). split; [rewrite Htr, <- app_assoc; reflexivity|].
      destruct (on_call_continue _ _ _ _ Hc) as (its0 & Hits0 & ->).
      intros [|j] c r its Hj Hcap Hgot H2 Hpush.
      * rewrite Nat.add_0_r in Hcap. rewrite Hcap in Hrun.
        apply while_at_cap in Hrun. destruct Hrun as [-> Htr'].
        rewrite Htr' in Htr. rewrite <- (app_nil_r (trace ++ [c0])) in Htr at 1.
        apply app_inv_head in Htr. subst new.
        split; [reflexivity|]. exists [its0]. split.
        -- constructor; [assumption|constructor].
        -- simpl. rewrite app_nil_r. reflexivity.
      * cbn [nth_error] in Hj.
        destruct (Hnew j c r its Hj) as (Hlen & pl & Hpl & ->); try assumption.
        { rewrite <- Hcap. cbn. rewrite Nat.add_succ_r. reflexivity. }
        split; [cbn; rewrite Hlen; reflexivity|].
        exists (its0 :: pl). split; [constructor; assumption|].
        simpl. rewrite app_assoc. reflexivity.
    + intros [= <- <-]. exists [c0]. split; [reflexivity|].
      intros [|[|j]] c r its Hj Hcap Hgot H2 Hpush; try discriminate.
      injection Hj as <-. rewrite (on_call_answered _ _ _ _ Hgot H2 Hpush) in Hc.
      destruct (first_non_empty _); [discriminate|]. injection Hc as <-.
      split; [reflexivity|]. exists [its]. split.
      * constructor; [|constructor]. exists r. auto.
      * simpl. rewrite app_nil_r. reflexivity.
    + intros [= <- <-]. exists [c0]. split; [reflexivity|].
      intros [|[|j]] c r its Hj Hcap Hgot H2 Hpush; try discriminate.
      injection Hj as <-. rewrite (on_call_answered _ _ _ _ Hgot H2 Hpush) in Hc.
      discriminate.
Qed.

(** X2.  The fiftieth page is always the last one.  When the fiftieth call
    is answered 2xx with an item list, the run makes no other call and
    replies with [ok: true] and the item lists of all fifty pages in the
    order of the requests, whether or not that page named a next cursor:
    at the cap the result is cut short without any sign of it in the
    reply.  When the body of the fiftieth answer has no item list the run
    ends there as well, with the failure 500 of the TypeError. *)
Theorem fiftieth_page_ends_run
    (env : string -> option string) (fuel : nat) (up : upstream) (userId : string)
    (rep : reply) (trace : list call) (c : call) (r : http_response) :
  Wrapper.created_gamepasses env fuel up userId = Some (rep, trace) ->
  nth_error trace 49 = Some c ->
  got c = Answer r -> is_2xx (status r) = true ->
  length trace = 50 /\
  match item_list (data r) with
  | Some _ =>
      exists pages_items, Forall2 page_items trace pages_items
                          /\ rep = aggregated (concat pages_items)
  | None => rep = failure 500 (VStr (no_list_message (data r)))
  end.
Proof.
  unfold Wrapper.created_gamepasses.
  destruct (all_digits userId); cbv [negb].
  2: { intros [= _ <-]. discriminate. }
  destruct (Wrapper.while env fuel up userId [] (VStr "") 0 []) as [[res tr]|] eqn:Hrun;
    [|discriminate].
  intros Hrep Hk Hgot H2.
  assert (trace = tr) as -> by (destruct res; injection Hrep; auto).
  destruct (item_list (data r)) as [its|] eqn:Hits.
  - assert (Wrapper.push_items [] (data r) = Ok its) as Hpush
        by (rewrite push_items_listed, Hits; reflexivity).
    apply while_last_page in Hrun. destruct Hrun as (new & -> & Hnew).
    cbn [app] in *.
    destruct (Hnew 49 c r its Hk eq_refl Hgot H2 Hpush) as (Hlen & pl & Hpl & ->).
    injection Hrep as <-. split; [exact Hlen|]. exists pl.
    split; [now apply pages_pushed_items|reflexivity].
  - apply while_run in Hrun. destruct Hrun as (new & -> & Hnew). cbn [app] in *.
    destruct (pages_run_thrown _ _ _ Hnew 49 c _ Hk
                (fun rs => on_call_no_list rs c r Hgot H2 Hits)) as [-> Hlen].
    injection Hrep as <-. split; [exact Hlen|].
    unfold no_list_message. destruct (nullish (data r)); reflexivity.
Qed.

Lemma fiftieth_page_ends_run_witness :
  exists rep trace,
    Wrapper.created_gamepasses no_env 50 endless_meta "123" = Some (rep, trace)
    /\ length trace = 50
    /\ exists pages_items, Forall2 page_items trace pages_items
                           /\ rep = aggregated (concat pages_items).
Proof.
  eexists _, _.
  split; [vm_compute; reflexivity|].
  refine (fiftieth_page_ends_run no_env 50 endless_meta "123" _ _ _
            {| status := 200;
               data := VObj [("items", VArr [num 49]);
                             ("meta", VObj [("nextExclusiveStartId", num 50)])] |}
            _ _ _ _);
    vm_compute; reflexivity.
Defined.

Lemma push_items_env_app (results : list value) (body : value) (out : list value) :
  WrapperEnv.push_items results body = Ok out ->
  exists its, WrapperEnv.push_items [] body = Ok its /\ out = (results ++ its)%list.
Proof.
  unfold WrapperEnv.push_items.
  destruct (get body data_) as [d|e]; simpl; [|discriminate].
  destruct (isArray d).
  { destruct (spread d) as [xs|e]; simpl; [|discriminate]. intros [= <-]. eauto. }
  destruct (get body gamePasses) as [gp|e]; simpl; [|discriminate].
  destruct (isArray gp).
  { destruct (spread gp) as [xs|e]; simpl; [|discriminate]. intros [= <-]. eauto. }
  destruct (get body items) as [it|e]; simpl; [|discriminate].
  destruct (isArray it).
  { destruct (spread it) as [xs|e]; simpl; [|discriminate]. intros [= <-]. eauto. }
  intros [= <-]. exists []. rewrite app_nil_r. auto.
Qed.

Lemma push_items_env_from (results : list value) (body : value) (its : list value) :
  WrapperEnv.push_items [] body = Ok its ->
  WrapperEnv.push_items results body = Ok (results ++ its)%list.
Proof.
  unfold WrapperEnv.push_items.
  destruct (get body data_) as [d|e]; simpl; [|discriminate].
  destruct (isArray d).
  { destruct (spread d) as [xs|e]; simpl; [|discriminate]. now intros [= <-]. }
  destruct (get body gamePasses) as [gp|e]; simpl; [|discriminate].
  destruct (isArray gp).
  { destruct (spread gp) as [xs|e]; simpl; [|discriminate]. now intros [= <-]. }
  destruct (get body items) as [it|e]; simpl; [|discriminate].
  destruct (isArray it).
  { destruct (spread it) as [xs|e]; simpl; [|discriminate]. now intros [= <-]. }
  intros [= <-]. now rewrite app_nil_r.
Qed.

(** X3.  A page only appends.  In both generations, when the items of a
    page are taken, the results gathered before stay in front, in their
    order, and what is added depends on the page alone: the same items
    would be added to any other list of results. *)
Theorem page_only_appends (results : list value) (body : value) (out : list value) :
  (Wrapper.push_items results body = Ok out ->
   exists its, out = (results ++ its)%list
               /\ forall other, Wrapper.push_items other body = Ok (other ++ its)%list)
  /\
  (WrapperEnv.push_items results body = Ok out ->
   exists its, out = (results ++ its)%list
               /\ forall other, WrapperEnv.push_items other body = Ok (other ++ its)%list).
Proof.
  split; intros H.
  - apply push_items_app in H. destruct H as (its & Hits & ->).
    exists its. split; [reflexivity|]. intros other. now apply push_items_from.
  - apply push_items_env_app in H. destruct H as (its & Hits & ->).
    exists its. split; [reflexivity|]. intros other. now apply push_items_env_from.
Qed.

Lemma page_only_appends_witness :
  let body := VObj [("gamePasses", VArr [num 3; num 4])] in
  (exists its, [num 1; num 2; num 3; num 4] = ([num 1; num 2] ++ its)%list
               /\ forall other, Wrapper.push_items other body = Ok (other ++ its)%list)
  /\
  (exists its, [num 1; num 2; num 3; num 4] = ([num 1; num 2] ++ its)%list
               /\ forall other, WrapperEnv.push_items other body = Ok (other ++ its)%list).
Proof.
  intros body. split.
  - apply (proj1 (page_only_appends [num 1; num 2] body [num 1; num 2; num 3; num 4])).
    reflexivity.
  - apply (proj2 (page_only_appends [num 1; num 2] body [num 1; num 2; num 3; num 4])).
    reflexivity.
Defined.

Lemma spread_array (v : value) :
  isArray v = true -> spread v = Ok (elements (Some v)).
Proof. destruct v; simpl; try discriminate. reflexivity. Qed.

(** X4.  The dotenv generation never throws on a body that is not [null]:
    it spreads arrays only.  The items are the elements of the first of
    [body.data], [body.gamePasses], [body.items] that is an array, and none
    when no such field is one; a body that is itself an array yields
    nothing. *)
Theorem env_push_items_total (results : list value) (body : value) :
  nullish body = false ->
  WrapperEnv.push_items results body =
  Ok (results ++ elements (find isArray [field body data_; field body gamePasses;
                                         field body items]))%list
  /\ (isArray body = true -> WrapperEnv.push_items results body = Ok results).
Proof.
  intros Hb. unfold WrapperEnv.push_items.
  rewrite !(get_field body) by assumption. cbn [bind find].
  split.
  - destruct (isArray (field body data_)) eqn:Hd.
    { rewrite (spread_array _ Hd). reflexivity. }
    destruct (isArray (field body gamePasses)) eqn:Hg.
    { rewrite (spread_array _ Hg). reflexivity. }
    destruct (isArray (field body items)) eqn:Hi.
    { rewrite (spread_array _ Hi). reflexivity. }
    cbn [elements]. rewrite app_nil_r. reflexivity.
  - intros Ha. destruct body; try discriminate. reflexivity.
Qed.

Lemma env_push_items_total_witness :
  WrapperEnv.push_items [num 1] (VObj [("gamePasses", num 5); ("items", VArr [num 2])])
  = Ok [num 1; num 2]
  /\ WrapperEnv.push_items [num 1] (VArr [num 9]) = Ok [num 1].
Proof.
  split.
  - apply (proj1 (env_push_items_total [num 1]
                    (VObj [("gamePasses", num 5); ("items", VArr [num 2])]) eq_refl)).
  - apply (proj2 (env_push_items_total [num 1] (VArr [num 9]) eq_refl)). reflexivity.
Defined.

Lemma spread_throws (v : value) :
  (exists e, spread v = Throw e) <-> iterable v = false.
Proof.
  destruct v; simpl; split; intros H; try discriminate; eauto;
    destruct H as [e H]; discriminate.
Qed.

Lemma bind_spread_throws (results : list value) (v : value) :
  (exists e, (xs <- spread v ;; Ok (results ++ xs)%list) = Throw e)
  <-> iterable v = false.
Proof.
  rewrite <- spread_throws. destruct (spread v) as [xs|e]; cbn [bind].
  - split; intros [e H]; discriminate.
  - split; intros _; eauto.
Qed.

(** X5.  When the wrapper of src/index.js:264-276 throws on a page.  It
    does so exactly when the body is [null], or when neither [body.data]
    nor the body is an array and the first truthy one of
    [body.gamePasses], [body.items] is neither an array nor a string.  A
    truthy string there is spread into its characters. *)
Theorem wrapper_push_items_throws_iff (results : list value) (body : value) :
  (exists e, Wrapper.push_items results body = Throw e)
  <->
  nullish body = true
  \/ (isArray (field body data_) = false /\ isArray body = false
      /\ exists v, find truthy [field body gamePasses; field body items] = Some v
                   /\ iterable v = false).
Proof.
  unfold Wrapper.push_items.
  destruct (nullish body) eqn:Hb.
  { split; [auto|]. intros _. destruct body; try discriminate; simpl; eauto. }
  rewrite !(get_field body) by assumption. cbn [bind find].
  destruct (isArray (field body data_)) eqn:Hd.
  { rewrite (spread_array _ Hd). cbn [bind]. split.
    - intros [e H]. discriminate.
    - intros [H|(H & _)]; discriminate. }
  destruct (isArray body) eqn:Ha.
  { rewrite (spread_array _ Ha). cbn [bind]. split.
    - intros [e H]. discriminate.
    - intros [H|(_ & H & _)]; discriminate. }
  destruct (truthy (field body gamePasses)) eqn:Hg.
  { rewrite bind_spread_throws. split.
    - intros H. right. repeat split. eauto.
    - intros [H|(_ & _ & v & [= <-] & Hv)]; [discriminate|assumption]. }
  destruct (truthy (field body items)) eqn:Hi.
  { rewrite bind_spread_throws. split.
    - intros H. right. repeat split. eauto.
    - intros [H|(_ & _ & v & [= <-] & Hv)]; [discriminate|assumption]. }
  split.
  - intros [e H]. discriminate.
  - intros [H|(_ & _ & v & H & _)]; discriminate.
Qed.

(** A truthy string under [gamePasses] is taken letter by letter. *)
Example wrapper_spreads_strings :
  Wrapper.push_items [] (VObj [("gamePasses", VStr "none")])
  = Ok [VStr "n"; VStr "o"; VStr "n"; VStr "e"].
Proof. reflexivity. Qed.

(** ** The verdicts of /api/owns *)

Lemma owns_verdict_same (body : value) :
  WrapperEnv.owns_verdict body = Wrapper.owns_verdict body.
Proof. reflexivity. Qed.

Lemma first_count (body : value) :
  nullish body = false ->
  (get body totalCount ||| get body total ||| get body count)
  = Ok match find truthy (counts body) with
       | Some c => c
       | None => field body count
       end.
Proof.
  intros Hb. unfold counts. rewrite !(get_field body) by assumption. cbn [find].
  destruct (truthy (field body totalCount)) eqn:H1; [settle_or H1; reflexivity|].
  settle_or H1.
  destruct (truthy (field body total)) eqn:H2; [settle_or H2; reflexivity|].
  settle_or H2. destruct (truthy (field body count)); reflexivity.
Qed.

Lemma find_truthy_counts body c :
  find truthy (counts body) = Some c -> truthy c = true.
Proof. intros H. apply find_some in H. tauto. Qed.

Lemma find_truthy_counts_none body :
  find truthy (counts body) = None -> truthy (field body count) = false.
Proof.
  unfold counts. cbn [find].
  destruct (truthy (field body totalCount)); [discriminate|].
  destruct (truthy (field body total)); [discriminate|].
  destruct (truthy (field body count)); [discriminate|reflexivity].
Qed.

(** The verdict on a body, branch by branch. *)
Lemma owns_verdict_cases (body : value) :
  Wrapper.owns_verdict body =
  if truthy body then
    match field body data_ with
    | VArr xs => Ok (list_verdict body xs)
    | _ =>
        match find truthy (counts body) with
        | Some c => positive <- gt_zero c ;; Ok (count_verdict body c positive)
        | None => Ok (unknown_verdict body)
        end
    end
  else Ok (unknown_verdict body).
Proof.
  unfold Wrapper.owns_verdict. rewrite !and_Ok.
  destruct (truthy body) eqn:Hb.
  2: { cbn [bind]. rewrite Hb. reflexivity. }
  pose proof (truthy_not_nullish _ Hb) as Hn.
  rewrite (first_count body Hn), !(get_field body) by assumption. cbn [bind].
  destruct (isArray (field body data_)) eqn:Hd.
  { destruct (field body data_); try discriminate. cbn [truthy spread bind].
    unfold list_verdict. destruct xs; reflexivity. }
  cbn [truthy].
  assert (match field body data_ with
          | VArr xs => Ok (list_verdict body xs)
          | _ => match find truthy (counts body) with
                 | Some c => positive <- gt_zero c ;; Ok (count_verdict body c positive)
                 | None => Ok (unknown_verdict body)
                 end
          end
          = match find truthy (counts body) with
            | Some c => positive <- gt_zero c ;; Ok (count_verdict body c positive)
            | None => Ok (unknown_verdict body)
            end) as ->.
  { destruct (field body data_); try reflexivity. discriminate. }
  destruct (find truthy (counts body)) as [c|] eqn:Hc.
  - rewrite (find_truthy_counts _ _ Hc). reflexivity.
  - rewrite (find_truthy_counts_none _ Hc). reflexivity.
Qed.

Lemma owns_answered (up : upstream) (userId gamePassId : string) (r : http_response) :
  all_digits userId = true -> all_digits gamePassId = true ->
  (forall u cfg, up 0 u cfg = Answer r) -> is_2xx (status r) = true ->
  fst (Wrapper.owns up userId gamePassId)
  = match Wrapper.owns_verdict (data r) with
    | Ok rep => rep
    | Throw err => Wrapper.owns_catch err
    end
  /\ fst (WrapperEnv.owns up userId gamePassId)
     = match Wrapper.owns_verdict (data r) with
       | Ok rep => rep
       | Throw err => WrapperEnv.owns_catch err
       end.
Proof.
  intros Hu Hg Hup H2. unfold Wrapper.owns, WrapperEnv.owns.
  rewrite Hu, Hg, !Hup. cbn [negb orb settle]. rewrite H2. cbn [bind].
  change (WrapperEnv.owns_verdict (data r)) with (Wrapper.owns_verdict (data r)).
  destruct (Wrapper.owns_verdict (data r)); split; reflexivity.
Qed.

Lemma gt_zero_throws_500 (c : value) (err : error) :
  gt_zero c = Throw err ->
  statusCode (Wrapper.owns_catch err) = 500
  /\ statusCode (WrapperEnv.owns_catch err) = 500.
Proof.
  unfold gt_zero, ToNumber. destruct (to_string_throws c); [|discriminate].
  cbn [bind]. intros [= <-]. split; reflexivity.
Qed.

(** X6.  When /api/owns answers "unknown".  For a 2xx answer of the
    inventory endpoint, both generations reply [ok: false, owns: "unknown"]
    with the raw body exactly when the body is falsy (empty, [null], 0,
    [false]) or has no [data] array and no truthy one of [totalCount],
    [total], [count]; in every other case the reply is something else. *)
Theorem owns_unknown_iff
    (up : upstream) (userId gamePassId : string) (r : http_response) :
  all_digits userId = true -> all_digits gamePassId = true ->
  (forall u cfg, up 0 u cfg = Answer r) -> is_2xx (status r) = true ->
  let no_reading :=
    truthy (data r) = false
    \/ (isArray (field (data r) data_) = false
        /\ find truthy (counts (data r)) = None) in
  (fst (Wrapper.owns up userId gamePassId) = unknown_verdict (data r) <-> no_reading)
  /\ (fst (WrapperEnv.owns up userId gamePassId) = unknown_verdict (data r)
      <-> no_reading).
Proof.
  intros Hu Hg Hup H2 no_reading. subst no_reading.
  destruct (owns_answered up userId gamePassId r Hu Hg Hup H2) as [-> ->].
  rewrite owns_verdict_cases.
  destruct (truthy (data r)) eqn:Hb.
  2: { split; (split; [auto|reflexivity]). }
  destruct (isArray (field (data r) data_)) eqn:Hd.
  { destruct (field (data r) data_); try discriminate.
    split; (split; [discriminate | intros [H|[H _]]; discriminate]). }
  assert (match field (data r) data_ with
          | VArr xs => Ok (list_verdict (data r) xs)
          | _ => match find truthy (counts (data r)) with
                 | Some c => positive <- gt_zero c ;; Ok (count_verdict (data r) c positive)
                 | None => Ok (unknown_verdict (data r))
                 end
          end
          = match find truthy (counts (data r)) with
            | Some c => positive <- gt_zero c ;; Ok (count_verdict (data r) c positive)
            | None => Ok (unknown_verdict (data r))
            end) as ->.
  { destruct (field (data r) data_); try reflexivity. discriminate. }
  destruct (find truthy (counts (data r))) as [c|].
  - destruct (gt_zero c) as [b|err] eqn:Hgt; cbn [bind].
    + split; (split; [discriminate | intros [H|[_ H]]; discriminate]).
    + destruct (gt_zero_throws_500 _ _ Hgt) as [H1 H2'].
      split; (split; [|intros [H|[_ H]]; discriminate]); intros H;
        apply (f_equal statusCode) in H; cbn in H; congruence.
  - split; (split; [auto|reflexivity]).
Qed.

Lemma owns_unknown_iff_witness :
  fst (Wrapper.owns (always 204 (VStr "")) "1" "2") = unknown_verdict (VStr "")
  /\ fst (WrapperEnv.owns (always 200 (VObj [("total", num 0); ("count", VStr "")]))
            "1" "2")
     = unknown_verdict (VObj [("total", num 0); ("count", VStr "")]).
Proof.
  split.
  - apply (proj1 (owns_unknown_iff (always 204 (VStr "")) "1" "2"
                    {| status := 204; data := VStr "" |}
                    eq_refl eq_refl (fun _ _ => eq_refl) eq_refl)).
    left. reflexivity.
  - apply (proj2 (owns_unknown_iff
                    (always 200 (VObj [("total", num 0); ("count", VStr "")])) "1" "2"
                    {| status := 200; data := VObj [("total", num 0); ("count", VStr "")] |}
                    eq_refl eq_refl (fun _ _ => eq_refl) eq_refl)).
    right. split; reflexivity.
Defined.



(** X8.  A [data] array outranks every count.  When the truthy body of a
    2xx answer has an array under [data], the reply is [ok: true] with
    [owns] telling whether the array has an element, whatever
    [totalCount], [total] and [count] say. *)
Theorem owns_data_list_outranks_counts
    (up : upstream) (userId gamePassId : string) (r : http_response)
    (xs : list value) :
  all_digits userId = true -> all_digits gamePassId = true ->
  (forall u cfg, up 0 u cfg = Answer r) -> is_2xx (status r) = true ->
  field (data r) data_ = VArr xs ->
  truthy (data r) = true ->
  fst (Wrapper.owns up userId gamePassId) = list_verdict (data r) xs
  /\ fst (WrapperEnv.owns up userId gamePassId) = list_verdict (data r) xs.
Proof.
  intros Hu Hg Hup H2 Hd Hb.
  destruct (owns_answered up userId gamePassId r Hu Hg Hup H2) as [-> ->].
  rewrite owns_verdict_cases, Hb, Hd. split; reflexivity.
Qed.

Lemma owns_data_list_outranks_counts_witness :
  let body := VObj [("totalCount", num 5); ("data", VArr [])] in
  fst (Wrapper.owns (always 200 body) "1" "2") = list_verdict body []
  /\ fst (WrapperEnv.owns (always 200 body) "1" "2") = list_verdict body [].
Proof.
  intros body.
  apply (owns_data_list_outranks_counts (always 200 body) "1" "2"
           {| status := 200; data := body |} []);
    reflexivity.
Defined.

(** X9.  When the inventory call gets no answer at all (DNS, connection,
    timeout), neither generation takes it for "does not own": both reply
    500 with the error message.  With an empty message the wrapper of
    src/index.js:328-335 says "request failed" and the dotenv generation
    sends the empty string. *)
Theorem owns_without_answer_is_500
    (up : upstream) (userId gamePassId : string) (msg : string) :
  all_digits userId = true -> all_digits gamePassId = true ->
  (forall u cfg, up 0 u cfg = NoAnswer msg) ->
  fst (Wrapper.owns up userId gamePassId)
  = failure 500 (if msg =? "" then VStr "request failed" else VStr msg)
  /\ fst (WrapperEnv.owns up userId gamePassId) = failure 500 (VStr msg).
Proof.
  intros Hu Hg Hup. unfold Wrapper.owns, WrapperEnv.owns.
  rewrite Hu, Hg, !Hup. cbn [negb orb settle bind fst].
  unfold Wrapper.owns_catch, WrapperEnv.owns_catch, WrapperEnv.route_catch,
    failure, err_status, err_data, or_else.
  cbn [response message Nat.eqb truthy]. cbn.
  destruct (msg =? ""); split; reflexivity.
Qed.

Lemma owns_without_answer_is_500_witness :
  fst (Wrapper.owns (fun _ _ _ => NoAnswer "timeout of 10000ms exceeded") "1" "2")
  = failure 500 (VStr "timeout of 10000ms exceeded")
  /\ fst (WrapperEnv.owns (fun _ _ _ => NoAnswer "") "1" "2") = failure 500 (VStr "").
Proof.
  split.
  - apply (proj1 (owns_without_answer_is_500
                    (fun _ _ _ => NoAnswer "timeout of 10000ms exceeded") "1" "2"
                    "timeout of 10000ms exceeded" eq_refl eq_refl (fun _ _ => eq_refl))).
  - apply (proj2 (owns_without_answer_is_500 (fun _ _ _ => NoAnswer "") "1" "2" ""
                    eq_refl eq_refl (fun _ _ => eq_refl))).
Defined.

(** ** The two validations of an identifier *)

Ltac arith_of_bools :=
  repeat match goal with
         | H : _ && _ = true |- _ => apply andb_prop in H; destruct H
         | H : _ || _ = true |- _ => apply orb_prop in H; destruct H
         | H : Nat.leb _ _ = true |- _ => apply Nat.leb_le in H
         | H : Nat.eqb _ _ = true |- _ => apply Nat.eqb_eq in H
         end.

Lemma digit_range (c : nat) : is_digit c = true -> 48 <= c <= 57.
Proof. unfold is_digit. intros H. arith_of_bools. lia. Qed.

Lemma eqb_out (c k : nat) : c <> k -> Nat.eqb c k = false.
Proof. apply Nat.eqb_neq. Qed.

Lemma leb_out (a b : nat) : b < a -> Nat.leb a b = false.
Proof. apply Nat.leb_gt. Qed.

Lemma skip_ws_digit (c : nat) (t : list nat) :
  is_digit c = true -> skip_ws (c :: t) = c :: t.
Proof.
  intros H. apply digit_range in H. cbn [skip_ws]. unfold ws1, ws2, ws3.
  rewrite (leb_out c 13), (eqb_out c 32), (eqb_out c 194), (eqb_out c 225),
    (eqb_out c 226), (eqb_out c 227), (eqb_out c 239) by lia.
  rewrite andb_false_r. cbn [orb andb].
  destruct t as [|b [|d t]]; reflexivity.
Qed.

Lemma non_decimal_digits (l : list nat) :
  forallb is_digit l = true -> non_decimal l = None.
Proof.
  destruct l as [|z [|p t]]; try reflexivity. cbn [forallb]. intros H.
  arith_of_bools. apply digit_range in H0. unfold non_decimal.
  destruct (Nat.eqb z 48); [|reflexivity].
  rewrite (eqb_out p 120), (eqb_out p 88), (eqb_out p 111), (eqb_out p 79),
    (eqb_out p 98), (eqb_out p 66) by lia.
  reflexivity.
Qed.

Lemma take_sign_digit (c : nat) (t : list nat) :
  is_digit c = true -> take_sign (c :: t) = (false, c :: t).
Proof.
  intros H. apply digit_range in H. unfold take_sign.
  rewrite (eqb_out c 45), (eqb_out c 43) by lia. reflexivity.
Qed.

Lemma not_Infinity (c : nat) (t : list nat) :
  is_digit c = true -> strip_prefix Infinity_bytes (c :: t) = None.
Proof.
  intros H. apply digit_range in H.
  change Infinity_bytes with (73 :: bytes "nfinity"). cbn [strip_prefix].
  rewrite (proj2 (Nat.eqb_neq 73 c)) by lia. reflexivity.
Qed.

Lemma take_digits_all (ok : nat -> bool) (l : list nat) :
  forallb ok l = true -> take_digits ok l = (l, []).
Proof.
  induction l as [|c l IH]; [reflexivity|]. cbn [forallb take_digits]. intros H.
  arith_of_bools. rewrite H, IH by assumption. reflexivity.
Qed.

Lemma unsigned_decimal_digits (l : list nat) :
  l <> [] -> forallb is_digit l = true ->
  unsigned_decimal l = Some (digits_value l, 0%Z, []).
Proof.
  intros Hne H. unfold unsigned_decimal. rewrite (take_digits_all _ _ H).
  rewrite app_nil_r. destruct l; [contradiction|]. reflexivity.
Qed.

Lemma bytes_all_digits (s : string) :
  all_digits s = true ->
  exists c t, bytes s = c :: t /\ is_digit c = true /\ forallb is_digit (c :: t) = true.
Proof.
  unfold all_digits. intros H. arith_of_bools.
  destruct (bytes s) as [|c t] eqn:E.
  - destruct s; [discriminate H|discriminate E].
  - exists c, t. split; [reflexivity|]. split; [|assumption].
    cbn [forallb] in H0. arith_of_bools. assumption.
Qed.

Lemma StringToNumber_digits (s : string) :
  all_digits s = true ->
  StringToNumber s = if (digits_value (bytes s) =? 0)%Z then SZero else SPos.
Proof.
  intros H. destruct (bytes_all_digits s H) as (c & t & E & Hc & Hall).
  unfold StringToNumber. rewrite E, (skip_ws_digit c t Hc).
  rewrite (non_decimal_digits _ Hall), (take_sign_digit c t Hc), (not_Infinity c t Hc).
  rewrite (unsigned_decimal_digits (c :: t)) by (assumption || discriminate).
  reflexivity.
Qed.

(** X10.  Every identifier the wrapper routes accept, the [isNaN] test
    accepts too.  A string of decimal digits reads as a number that is
    zero or positive, never NaN and never negative, and [parseInt] of it
    is that number as a binary64; so /api/v1/check-ownership of src/index.js:55-112 lets
    such a userId and gamePassId through to upstream. *)
Theorem digits_pass_isNaN (now : string) (fetch : fetcher) (query : req_query)
    (userId gamePassId : string) :
  all_digits userId = true -> all_digits gamePassId = true ->
  query "userId" = Some (PStr userId) ->
  query "gamePassId" = Some (PStr gamePassId) ->
  isNaN userId = false
  /\ StringToNumber userId <> SNeg
  /\ parseInt userId
     = (if (digits_value (bytes userId) =? 0)%Z then S754_zero false
        else of_Z (digits_value (bytes userId)))
  /\ snd (Api.check_ownership now fetch query)
     = [{| target := is_owned_url userId gamePassId;
           init_headers := [("Content-Type", VStr "application/json")] |}].
Proof.
  intros Hu Hg Qu Qg.
  assert (forall s, all_digits s = true -> isNaN s = false) as Hnan.
  { intros s H. unfold isNaN. rewrite (StringToNumber_digits s H).
    destruct (_ =? _)%Z; reflexivity. }
  split; [auto|]. split.
  { rewrite (StringToNumber_digits _ Hu). destruct (_ =? _)%Z; discriminate. }
  split.
  { destruct (bytes_all_digits _ Hu) as (c & t & E & Hc & Hall).
    unfold parseInt. rewrite E, (skip_ws_digit c t Hc), (take_sign_digit c t Hc).
    rewrite (take_digits_all _ _ Hall). reflexivity. }
  unfold Api.check_ownership. rewrite Qu, Qg.
  assert (missing (Some (PStr userId)) = false) as ->.
  { unfold all_digits in Hu. arith_of_bools. cbn. now apply negb_true_iff. }
  assert (missing (Some (PStr gamePassId)) = false) as ->.
  { unfold all_digits in Hg. arith_of_bools. cbn. now apply negb_true_iff. }
  cbn [orb isNaN_of to_text param_text bind].
  rewrite (Hnan _ Hu), (Hnan _ Hg).
  destruct (_ <- fetch _ _ ;; _); reflexivity.
Qed.

Lemma digits_pass_isNaN_witness :
  isNaN "007" = false
  /\ StringToNumber "007" <> SNeg
  /\ parseInt "007" = of_Z 7
  /\ snd (Api.check_ownership "" (fetch_always 200 "true")
            (query_of [("userId", "007"); ("gamePassId", "42")]))
     = [{| target := is_owned_url "007" "42";
           init_headers := [("Content-Type", VStr "application/json")] |}].
Proof.
  apply (digits_pass_isNaN "" (fetch_always 200 "true")
           (query_of [("userId", "007"); ("gamePassId", "42")]) "007" "42");
    reflexivity.
Defined.

(** ** What a numeric string can contain *)

Lemma not_breaking (c : nat) :
  c <> 35 -> c <> 37 -> c <> 47 -> c <> 63 -> c <> 92 -> breaks_path c = false.
Proof.
  intros. unfold breaks_path. cbn [existsb].
  rewrite !eqb_out by assumption. reflexivity.
Qed.

Ltac safe_byte := apply not_breaking; lia.

Lemma ws1_clean a : ws1 a = true -> breaks_path a = false.
Proof. unfold ws1. intros H. arith_of_bools; safe_byte. Qed.

Lemma ws2_clean a b : ws2 a b = true -> clean [a; b].
Proof.
  unfold ws2. intros H. arith_of_bools. repeat constructor; safe_byte.
Qed.

Lemma ws3_clean a b c : ws3 a b c = true -> clean [a; b; c].
Proof.
  unfold ws3. intros H. arith_of_bools; repeat constructor; safe_byte.
Qed.

(** What [skip_ws] skips is white space, none of whose bytes breaks a
    path. *)
Lemma skip_ws_split (n : nat) :
  forall s, length s <= n -> exists p, s = (p ++ skip_ws s)%list /\ clean p.
Proof.
  induction n as [|n IH]; intros s Hn.
  { destruct s; [|cbn in Hn; lia]. exists []. split; [reflexivity|constructor]. }
  destruct s as [|a t]; [exists []; split; [reflexivity|constructor]|].
  cbn [skip_ws]. cbn [length] in Hn.
  destruct (ws1 a) eqn:H1.
  { destruct (IH t) as (p & Hp & Hc); [lia|].
    exists (a :: p). split; [cbn; congruence|].
    constructor; [now apply ws1_clean|assumption]. }
  destruct t as [|b t2]; [exists []; split; [reflexivity|constructor]|].
  cbn [length] in Hn.
  destruct (ws2 a b) eqn:H2.
  { destruct (IH t2) as (p & Hp & Hc); [lia|].
    exists (a :: b :: p). split; [cbn; congruence|].
    apply ws2_clean in H2. inversion H2 as [|? ? Ha H2']. inversion H2'.
    repeat constructor; assumption. }
  destruct t2 as [|c t3]; [exists []; split; [reflexivity|constructor]|].
  cbn [length] in Hn.
  destruct (ws3 a b c) eqn:H3.
  { destruct (IH t3) as (p & Hp & Hc); [lia|].
    exists (a :: b :: c :: p). split; [cbn; congruence|].
    apply ws3_clean in H3. inversion H3 as [|? ? Ha H3']. inversion H3' as [|? ? Hb H3''].
    inversion H3''. repeat constructor; assumption. }
  exists []. split; [reflexivity|constructor].
Qed.

Lemma all_ws_clean (s : list nat) : all_ws s = true -> clean s.
Proof.
  unfold all_ws. destruct (skip_ws s) eqn:E; [|discriminate]. intros _.
  destruct (skip_ws_split (length s) s (le_n _)) as (p & Hp & Hc).
  rewrite E, app_nil_r in Hp. now subst.
Qed.

Lemma take_digits_split (ok : nat -> bool) (s : list nat) :
  forall d r, take_digits ok s = (d, r) -> s = (d ++ r)%list /\ forallb ok d = true.
Proof.
  induction s as [|c s IH]; intros d r; cbn [take_digits].
  - intros [= <- <-]. auto.
  - destruct (ok c) eqn:Hc.
    + destruct (take_digits ok s) as [d' r']. intros [= <- <-].
      destruct (IH d' r' eq_refl) as [-> H]. cbn. rewrite Hc. auto.
    + intros [= <- <-]. auto.
Qed.

Lemma digits_clean (ok : nat -> bool) (d : list nat) :
  (forall c, ok c = true -> breaks_path c = false) ->
  forallb ok d = true -> clean d.
Proof.
  intros Hok H. apply Forall_forall. intros c Hin.
  apply Hok. rewrite forallb_forall in H. auto.
Qed.

Lemma is_digit_clean c : is_digit c = true -> breaks_path c = false.
Proof. intros H. apply digit_range in H. safe_byte. Qed.

Lemma is_hex_clean c : is_hex c = true -> breaks_path c = false.
Proof.
  unfold is_hex. intros H. arith_of_bools; [now apply is_digit_clean| |]; safe_byte.
Qed.

Lemma is_octal_clean c : is_octal c = true -> breaks_path c = false.
Proof. unfold is_octal. intros H. arith_of_bools. safe_byte. Qed.

Lemma is_binary_clean c : is_binary c = true -> breaks_path c = false.
Proof. unfold is_binary. intros H. arith_of_bools. safe_byte. Qed.

Lemma take_sign_split (s : list nat) :
  exists p, s = (p ++ snd (take_sign s))%list /\ clean p.
Proof.
  unfold take_sign. destruct s as [|c t]; [exists []; split; [reflexivity|constructor]|].
  destruct (Nat.eqb c 45) eqn:H1.
  { arith_of_bools. subst. exists [45]. split; [reflexivity|]. repeat constructor. }
  destruct (Nat.eqb c 43) eqn:H2.
  { arith_of_bools. subst. exists [43]. split; [reflexivity|]. repeat constructor. }
  exists []. split; [reflexivity|constructor].
Qed.

Lemma exponent_part_split (s : list nat) (e : Z) (r : list nat) :
  exponent_part s = Some (e, r) -> exists p, s = (p ++ r)%list /\ clean p.
Proof.
  unfold exponent_part. destruct s as [|c t].
  { intros [= <- <-]. exists []. split; [reflexivity|constructor]. }
  destruct (Nat.eqb c 101 || Nat.eqb c 69) eqn:He.
  2: { intros [= <- <-]. exists []. split; [reflexivity|constructor]. }
  destruct (take_sign_split t) as (ps & Hps & Hcs).
  destruct (take_sign t) as [neg u]. cbn [snd] in Hps.
  destruct (take_digits is_digit u) as [ds r'] eqn:Hd.
  destruct (take_digits_split _ _ _ _ Hd) as [Hu Hds].
  destruct ds as [|d ds]; [discriminate|]. intros [= <- <-].
  exists (c :: ps ++ d :: ds)%list. split.
  - rewrite Hps, Hu. cbn. rewrite <- app_assoc. reflexivity.
  - constructor; [arith_of_bools; safe_byte|].
    apply Forall_app. split; [assumption|].
    exact (digits_clean _ _ is_digit_clean Hds).
Qed.

Lemma unsigned_decimal_split (s : list nat) (m e : Z) (r : list nat) :
  unsigned_decimal s = Some (m, e, r) -> exists p, s = (p ++ r)%list /\ clean p.
Proof.
  unfold unsigned_decimal.
  destruct (take_digits is_digit s) as [ip r1] eqn:Hip.
  destruct (take_digits_split _ _ _ _ Hip) as [-> Hipd].
  pose proof (digits_clean _ _ is_digit_clean Hipd) as Cip.
  assert (forall fp r2,
             (match r1 with
              | c :: t => if Nat.eqb c 46 then take_digits is_digit t else ([], r1)
              | [] => ([], r1)
              end) = (fp, r2) ->
             exists q, r1 = (q ++ r2)%list /\ clean q) as Hdot.
  { intros fp r2. destruct r1 as [|c t].
    - intros [= <- <-]. exists []. split; [reflexivity|constructor].
    - destruct (Nat.eqb c 46) eqn:Hc.
      + intros Hfp. destruct (take_digits_split _ _ _ _ Hfp) as [-> Hfpd].
        arith_of_bools. subst c. exists (46 :: fp). split; [reflexivity|].
        constructor; [reflexivity|]. exact (digits_clean _ _ is_digit_clean Hfpd).
      + intros [= <- <-]. exists []. split; [reflexivity|constructor]. }
  destruct (match r1 with
            | c :: t => if Nat.eqb c 46 then take_digits is_digit t else ([], r1)
            | [] => ([], r1)
            end) as [fp r2] eqn:Hfp.
  destruct (Hdot fp r2 eq_refl) as (q & -> & Cq).
  destruct (ip ++ fp)%list; [discriminate|].
  destruct (exponent_part r2) as [[e' r3]|] eqn:He; [|discriminate].
  intros [= _ _ <-].
  destruct (exponent_part_split _ _ _ He) as (pe & -> & Ce).
  exists (ip ++ q ++ pe)%list. split; [now rewrite <- !app_assoc|].
  repeat (apply Forall_app; split); assumption.
Qed.

Lemma non_decimal_split (s : list nat) (zero : bool) (r : list nat) :
  non_decimal s = Some (zero, r) -> exists p, s = (p ++ r)%list /\ clean p.
Proof.
  unfold non_decimal. destruct s as [|z [|p t]]; try discriminate.
  destruct (Nat.eqb z 48) eqn:Hz; [|discriminate].
  assert (forall ok, (forall c, ok c = true -> breaks_path c = false) ->
                     breaks_path p = false ->
                     match (let (ds, r0) := take_digits ok t in
                            match ds with
                            | [] => None
                            | _ :: _ => Some (forallb (Nat.eqb 48) ds, r0)
                            end) with
                     | Some (_, r0) => exists q, z :: p :: t = (q ++ r0)%list /\ clean q
                     | None => True
                     end) as Hok.
  { intros ok Hok Hp. destruct (take_digits ok t) as [ds r0] eqn:Hd.
    destruct (take_digits_split _ _ _ _ Hd) as [-> Hds].
    destruct ds as [|d ds]; [exact I|].
    exists (z :: p :: d :: ds). split; [reflexivity|].
    arith_of_bools. subst z.
    constructor; [reflexivity|]. constructor; [assumption|].
    exact (digits_clean _ _ Hok Hds). }
  destruct (Nat.eqb p 120 || Nat.eqb p 88) eqn:Hx.
  { intros H. specialize (Hok is_hex is_hex_clean).
    rewrite H in Hok. apply Hok. arith_of_bools; safe_byte. }
  destruct (Nat.eqb p 111 || Nat.eqb p 79) eqn:Ho.
  { intros H. specialize (Hok is_octal is_octal_clean).
    rewrite H in Hok. apply Hok. arith_of_bools; safe_byte. }
  destruct (Nat.eqb p 98 || Nat.eqb p 66) eqn:Hb; [|discriminate].
  intros H. specialize (Hok is_binary is_binary_clean).
  rewrite H in Hok. apply Hok. arith_of_bools; safe_byte.
Qed.

Lemma strip_prefix_split (p s r : list nat) :
  strip_prefix p s = Some r -> s = (p ++ r)%list.
Proof.
  revert s. induction p as [|a p IH]; intros s; cbn [strip_prefix].
  - now intros [= <-].
  - destruct s as [|b s]; [discriminate|].
    destruct (Nat.eqb a b) eqn:E; [|discriminate].
    arith_of_bools. subst b. intros H. rewrite (IH _ H). reflexivity.
Qed.

Lemma Infinity_clean : clean Infinity_bytes.
Proof. repeat constructor. Qed.

Lemma number_is_path_safe (s : string) : isNaN s = false -> path_safe s.
Proof.
  unfold isNaN, path_safe, StringToNumber. intros H.
  destruct (skip_ws_split _ (bytes s) (le_n _)) as (ws & Hws & Cws).
  rewrite Hws. apply Forall_app. split; [assumption|]. clear Hws.
  destruct (skip_ws (bytes s)) as [|c l]; [constructor|].
  destruct (non_decimal (c :: l)) as [[zero rest]|] eqn:Hnd.
  { destruct (non_decimal_split _ _ _ Hnd) as (p & Hp & Cp). rewrite Hp.
    destruct (all_ws rest) eqn:Hr; [|discriminate].
    apply Forall_app. split; [assumption|now apply all_ws_clean]. }
  destruct (take_sign_split (c :: l)) as (ps & Hps & Cps).
  destruct (take_sign (c :: l)) as [neg u]. cbn [snd] in Hps. rewrite Hps.
  apply Forall_app. split; [assumption|].
  destruct (strip_prefix Infinity_bytes u) as [rest|] eqn:Hinf.
  { rewrite (strip_prefix_split _ _ _ Hinf).
    destruct (all_ws rest) eqn:Hr; [|discriminate].
    apply Forall_app. split; [exact Infinity_clean|now apply all_ws_clean]. }
  destruct (unsigned_decimal u) as [[[m e] rest]|] eqn:Hud; [|discriminate].
  destruct (unsigned_decimal_split _ _ _ _ Hud) as (p & Hp & Cp). rewrite Hp.
  destruct (all_ws rest) eqn:Hr; [|discriminate].
  apply Forall_app. split; [assumption|now apply all_ws_clean].
Qed.

(** X11.  A parameter that passes the [isNaN] test cannot change the path
    it is put in.  Whenever /api/v1/check-ownership of src/index.js:55-112
    calls upstream, the URL is the is-owned URL of the two parameters as
    given, and neither of them contains [/], [?], [#], [%] or a
    backslash. *)
Theorem checked_parameters_stay_in_their_segment
    (now : string) (fetch : fetcher) (query : req_query) :
  snd (Api.check_ownership now fetch query) <> [] ->
  snd (Api.check_ownership now fetch query)
  = [{| target := is_owned_url (text_of (query "userId")) (text_of (query "gamePassId"));
        init_headers := [("Content-Type", VStr "application/json")] |}]
  /\ path_safe (text_of (query "userId"))
  /\ path_safe (text_of (query "gamePassId")).
Proof.
  unfold Api.check_ownership.
  destruct (missing (query "userId") || missing (query "gamePassId"));
    [intros H; now contradiction H|].
  unfold isNaN_of, text_of.
  destruct (to_text (query "userId")) as [u|e]; cbn [bind];
    [|intros H; now contradiction H].
  destruct (isNaN u) eqn:Hu; [intros H; now contradiction H|].
  destruct (to_text (query "gamePassId")) as [g|e]; cbn [bind];
    [|intros H; now contradiction H].
  destruct (isNaN g) eqn:Hg; [intros H; now contradiction H|].
  intros _. split.
  - destruct (_ <- fetch _ _ ;; _); reflexivity.
  - split; now apply number_is_path_safe.
Qed.

Lemma checked_parameters_stay_in_their_segment_witness :
  path_safe " 1.5e3 " /\ path_safe "0x1F".
Proof.
  pose proof (checked_parameters_stay_in_their_segment "" (fetch_always 200 "true")
                (query_of [("userId", " 1.5e3 "); ("gamePassId", "0x1F")])) as H.
  apply H. discriminate.
Defined.

(** The generations without the test put anything in the path. *)
Example keyless_parameters_escape_their_segment :
  snd (Keyless.check_ownership (fetch_always 200 "true")
         (query_of [("userId", "1/../../v2/x?y="); ("gamePassId", "2")]))
  = [{| target := is_owned_url "1/../../v2/x?y=" "2"; init_headers := [] |}].
Proof. reflexivity. Qed.

(** ** The query string of list-gamepasses *)

Lemma bytes_app (a b : string) : bytes (a ++ b) = (bytes a ++ bytes b)%list.
Proof.
  unfold bytes. induction a as [|c a IH]; [reflexivity|].
  cbn. f_equal. exact IH.
Qed.

Lemma occurrences_app (c : nat) (a b : string) :
  occurrences c (a ++ b) = occurrences c a + occurrences c b.
Proof. unfold occurrences. rewrite bytes_app. apply count_occ_app. Qed.

Lemma hex_digit_byte (n : nat) :
  n < 16 -> 48 <= nat_of_ascii (hex_digit n) <= 57
            \/ 65 <= nat_of_ascii (hex_digit n) <= 70.
Proof.
  intros H. unfold hex_digit. destruct (Nat.ltb_spec n 10).
  - rewrite nat_ascii_embedding by lia. lia.
  - rewrite nat_ascii_embedding by lia. lia.
Qed.

Lemma form_unreserved_plain (c : nat) :
  form_unreserved c = true -> c <> 35 /\ c <> 38 /\ c <> 61.
Proof.
  unfold form_unreserved. intros H. arith_of_bools;
    try (apply digit_range in H); lia.
Qed.

(** An encoded name or value has no [#], [&] or [=] left in it. *)
Lemma form_encode_plain (s : string) :
  Forall (fun c => c <> 35 /\ c <> 38 /\ c <> 61) (bytes (form_encode s)).
Proof.
  induction s as [|c s IH]; [constructor|].
  cbn [form_encode]. destruct (form_unreserved (nat_of_ascii c)) eqn:Hu.
  { constructor; [now apply form_unreserved_plain|exact IH]. }
  destruct (Nat.eqb (nat_of_ascii c) 32).
  { constructor; [cbn; lia|exact IH]. }
  pose proof (nat_ascii_bounded c) as Hc.
  assert (nat_of_ascii c / 16 < 16) as H1 by (apply Nat.Div0.div_lt_upper_bound; lia).
  assert (nat_of_ascii c mod 16 < 16) as H2 by (apply Nat.mod_upper_bound; lia).
  apply hex_digit_byte in H1, H2.
  constructor; [cbn; lia|]. constructor; [lia|]. constructor; [lia|]. exact IH.
Qed.

Lemma occurrences_none (c : nat) (s : string) :
  Forall (fun b => b <> c) (bytes s) -> occurrences c s = 0.
Proof.
  unfold occurrences. intros H. apply count_occ_not_In. intros Hin.
  rewrite Forall_forall in H. now apply (H c).
Qed.

Lemma form_encode_occurrences (s : string) :
  occurrences 35 (form_encode s) = 0
  /\ occurrences 38 (form_encode s) = 0
  /\ occurrences 61 (form_encode s) = 0.
Proof.
  pose proof (form_encode_plain s) as H.
  repeat split; apply occurrences_none; eapply Forall_impl; try exact H;
    cbn; intros; tauto.
Qed.

Lemma pair_occurrences (k v : string) :
  occurrences 35 (form_encode k ++ "=" ++ form_encode v) = 0
  /\ occurrences 38 (form_encode k ++ "=" ++ form_encode v) = 0
  /\ occurrences 61 (form_encode k ++ "=" ++ form_encode v) = 1.
Proof.
  destruct (form_encode_occurrences k) as (K1 & K2 & K3).
  destruct (form_encode_occurrences v) as (V1 & V2 & V3).
  rewrite !occurrences_app, K1, K2, K3, V1, V2, V3. repeat split.
Qed.

Lemma occurrences_joined (c : nat) (a b : string) :
  occurrences c (a ++ "&" ++ b) = occurrences c a + occurrences c "&" + occurrences c b.
Proof. rewrite !occurrences_app. lia. Qed.

Lemma query_string_occurrences (params : list (string * string)) :
  occurrences 35 (URLSearchParams_toString params) = 0
  /\ occurrences 38 (URLSearchParams_toString params) = length params - 1
  /\ occurrences 61 (URLSearchParams_toString params) = length params.
Proof.
  unfold URLSearchParams_toString.
  induction params as [|[k v] params IH]; [repeat split|].
  destruct (pair_occurrences k v) as (P1 & P2 & P3).
  destruct params as [|kv params].
  { cbn [map String.concat fst snd length]. rewrite P1, P2, P3. repeat split. }
  destruct IH as (I1 & I2 & I3).
  change (String.concat "&" (map _ ((k, v) :: kv :: params)))
    with ((form_encode k ++ "=" ++ form_encode v) ++ "&"
          ++ String.concat "&"
               (map (fun kv0 => form_encode (fst kv0) ++ "=" ++ form_encode (snd kv0))
                    (kv :: params))).
  assert (occurrences 35 "&" = 0) as A1 by (vm_compute; reflexivity).
  assert (occurrences 38 "&" = 1) as A2 by (vm_compute; reflexivity).
  assert (occurrences 61 "&" = 0) as A3 by (vm_compute; reflexivity).
  rewrite !occurrences_joined, P1, P2, P3, I1, I2, I3, A1, A2, A3. cbn [length].
  repeat split; lia.
Qed.

Lemma length_append_if (k : string) (v : option param)
    (params out : list (string * string)) :
  append_if k v params = Ok out -> length out = length params + given v.
Proof.
  unfold append_if, given. destruct (missing v).
  - intros [= <-]. lia.
  - destruct (to_text v); cbn [bind]; [|discriminate].
    intros [= <-]. rewrite length_app. reflexivity.
Qed.

(** X12.  The optional parameters of list-gamepasses cannot add to the
    upstream request.  Whenever the handler of src/index.js:115-187 calls
    upstream, it asks for the game-passes URL of the given universeId with
    a query string that has exactly one [name=value] pair for each of
    passView, pageSize and pageToken that is given, joined by [&], and no
    [#]: what a value contains of these is percent-encoded.  The
    universeId, having passed [isNaN], has no [/], [?], [#], [%] or
    backslash. *)
Theorem list_gamepasses_query_is_encoded
    (env : string -> option string) (now : string) (fetch : fetcher)
    (query : req_query) :
  snd (Api.list_gamepasses env now fetch query) <> [] ->
  let n := given (query "passView") + given (query "pageSize")
           + given (query "pageToken") in
  exists q, map target (snd (Api.list_gamepasses env now fetch query))
            = [universe_url (text_of (query "universeId")) q]
            /\ occurrences 61 q = n
            /\ occurrences 38 q = n - 1
            /\ occurrences 35 q = 0
            /\ path_safe (text_of (query "universeId")).
Proof.
  unfold Api.list_gamepasses.
  destruct (missing (query "universeId")); [intros H; now contradiction H|].
  unfold isNaN_of, text_of.
  destruct (to_text (query "universeId")) as [u|e]; cbn [bind];
    [|intros H; now contradiction H].
  destruct (isNaN u) eqn:Hu; [intros H; now contradiction H|].
  destruct (unset (Api.ROBLOX_API_KEY env)); [intros H; now contradiction H|].
  destruct (append_if "passView" (query "passView") []) as [p1|e] eqn:A1;
    cbn [bind]; [|intros H; now contradiction H].
  destruct (append_if "pageSize" (query "pageSize") p1) as [p2|e] eqn:A2;
    cbn [bind]; [|intros H; now contradiction H].
  destruct (append_if "pageToken" (query "pageToken") p2) as [params|e] eqn:A3;
    cbn [bind]; [|intros H; now contradiction H].
  intros _.
  set (n := given (query "passView") + given (query "pageSize")
            + given (query "pageToken")).
  exists (URLSearchParams_toString params).
  destruct (query_string_occurrences params) as (Q1 & Q2 & Q3).
  assert (length params = n) as Hn.
  { apply length_append_if in A1, A2, A3. cbn [length] in A1. unfold n. lia. }
  rewrite Q1, Q2, Q3, Hn. split.
  - destruct (_ <- fetch _ _ ;; _); reflexivity.
  - repeat split. now apply number_is_path_safe.
Qed.

Lemma list_gamepasses_query_is_encoded_witness :
  exists q,
    map target
      (snd (Api.list_gamepasses (fun _ => Some "key") "" (fetch_always 200 "{}")
              (query_of [("universeId", "12"); ("passView", "Full&pageSize=1#");
                         ("pageToken", "a b")])))
    = [universe_url "12" q]
    /\ occurrences 61 q = 2
    /\ occurrences 38 q = 1
    /\ occurrences 35 q = 0
    /\ path_safe "12".
Proof.
  apply (list_gamepasses_query_is_encoded (fun _ => Some "key") "" (fetch_always 200 "{}")
           (query_of [("universeId", "12"); ("passView", "Full&pageSize=1#");
                      ("pageToken", "a b")])).
  discriminate.
Defined.

(** The query string of that request, computed. *)
Example encoded_query_string :
  map target
    (snd (Api.list_gamepasses (fun _ => Some "key") "" (fetch_always 200 "{}")
            (query_of [("universeId", "12"); ("passView", "Full&pageSize=1#");
                       ("pageToken", "a b")])))
  = [universe_url "12" "passView=Full%26pageSize%3D1%23&pageToken=a+b"].
Proof. reflexivity. Qed.

(** ** The outcomes of the fetch based routes *)

Ltac carried := eexists; split; [reflexivity|reflexivity].

Ltac check_outcome_cases fetched :=
  destruct fetched as [resp|err]; cbn [bind fst];
  [ destruct (ok resp); cbn [negb];
    [ destruct (text resp); cbn [bind fst] | cbn [fst] ]
  | ];
  (eexists; split; [reflexivity|repeat split; carried]).

Lemma check_outcome_api now fetch query fetched u g :
  missing (query "userId") = false -> missing (query "gamePassId") = false ->
  to_text (query "userId") = Ok u -> to_text (query "gamePassId") = Ok g ->
  isNaN u = false -> isNaN g = false ->
  (forall url init, fetch url init = fetched) ->
  replied (Api.check_ownership now fetch query) (check_outcome fetched).
Proof.
  intros Mu Mg Tu Tg Nu Ng Hf.
  unfold replied, Api.check_ownership, check_outcome, isNaN_of.
  rewrite Mu, Mg, Tu, Tg. cbn [orb bind]. rewrite Nu, Ng, Hf.
  check_outcome_cases fetched.
Qed.

Lemma check_outcome_render fetch query fetched u g :
  missing (query "userId") = false -> missing (query "gamePassId") = false ->
  to_text (query "userId") = Ok u -> to_text (query "gamePassId") = Ok g ->
  (forall url init, fetch url init = fetched) ->
  replied (ApiRender.check_ownership fetch query) (check_outcome fetched).
Proof.
  intros Mu Mg Tu Tg Hf.
  unfold replied, ApiRender.check_ownership, check_outcome.
  rewrite Mu, Mg, Tu, Tg. cbn [orb bind]. rewrite Hf.
  check_outcome_cases fetched.
Qed.

Lemma check_outcome_keyless fetch query fetched u g :
  missing (query "userId") = false -> missing (query "gamePassId") = false ->
  to_text (query "userId") = Ok u -> to_text (query "gamePassId") = Ok g ->
  (forall url init, fetch url init = fetched) ->
  replied (Keyless.check_ownership fetch query) (check_outcome fetched).
Proof.
  intros Mu Mg Tu Tg Hf.
  unfold replied, Keyless.check_ownership, check_outcome.
  rewrite Mu, Mg, Tu, Tg. cbn [orb bind]. rewrite Hf.
  check_outcome_cases fetched.
Qed.

(** X13.  How /api/v1/check-ownership answers once its parameters are
    accepted, in all three generations, for parameters that convert to
    strings [u] and [g].  A response outside 2xx, 404 included, is passed
    on with its own status and [success: false], and its body is not
    read; a 2xx response gives 200 with [isOwned]; a fetch that throws, or
    a 2xx body that cannot be read, gives 500 with the error message.  A
    404 is never taken for "not owned" here, unlike in /api/owns. *)
Theorem check_ownership_outcome
    (now : string) (fetch : fetcher) (query : req_query)
    (fetched : result fetch_response) (u g : string) :
  missing (query "userId") = false -> missing (query "gamePassId") = false ->
  to_text (query "userId") = Ok u -> to_text (query "gamePassId") = Ok g ->
  (forall url init, fetch url init = fetched) ->
  (isNaN u = false -> isNaN g = false ->
   replied (Api.check_ownership now fetch query) (check_outcome fetched))
  /\ replied (ApiRender.check_ownership fetch query) (check_outcome fetched)
  /\ replied (Keyless.check_ownership fetch query) (check_outcome fetched).
Proof.
  intros Mu Mg Tu Tg Hf. split; [|split].
  - intros Nu Ng. now apply (check_outcome_api now fetch query fetched u g).
  - now apply (check_outcome_render fetch query fetched u g).
  - now apply (check_outcome_keyless fetch query fetched u g).
Qed.

Lemma check_ownership_outcome_witness :
  let query := query_of [("userId", "1"); ("gamePassId", "2")] in
  replied (Api.check_ownership "" (fetch_always 404 "") query)
    (fun rep => statusCode rep = 404
                /\ carries rep "success" (VBool false)
                /\ carries rep "robloxStatusCode" (VNum (of_nat 404))).
Proof.
  intros query.
  apply (proj1 (check_ownership_outcome "" (fetch_always 404 "") query
                  (Ok {| fetch_status := 404; text := Ok "";
                         json := Throw (TypeError "Unexpected token") |}) "1" "2"
                  eq_refl eq_refl eq_refl eq_refl (fun _ _ => eq_refl))
           eq_refl eq_refl).
Defined.

Lemma lower_is (x k : nat) :
  97 <= k <= 122 -> lower x = k <-> x = k \/ x + 32 = k.
Proof.
  intros Hk. unfold lower.
  destruct (Nat.leb_spec 65 x); destruct (Nat.leb_spec x 90); cbn [andb]; lia.
Qed.

Lemma ascii_is (a : ascii) (k : nat) :
  k < 256 -> nat_of_ascii a = k -> a = ascii_of_nat k.
Proof. intros _ <-. symmetry. apply ascii_nat_embedding. Qed.

Lemma letter_cases (a : ascii) (k : nat) :
  97 <= k <= 122 ->
  lower (nat_of_ascii a) = k <-> a = ascii_of_nat k \/ a = ascii_of_nat (k - 32).
Proof.
  intros Hk. rewrite (lower_is _ k Hk). split.
  - intros [H|H]; [left|right]; apply ascii_is; lia.
  - intros [->| ->]; rewrite nat_ascii_embedding by lia; lia.
Qed.

Lemma lowercase_is_true_iff (t : string) :
  lowercase_is_true t = true <-> spells_true t.
Proof.
  unfold lowercase_is_true, spells_true.
  destruct (list_eq_dec Nat.eq_dec (map lower (bytes t)) (bytes "true")) as [E|N].
  - split; [intros _|reflexivity].
    destruct t as [|a [|b [|c [|d [|x t]]]]]; try discriminate E.
    injection E as Ha Hb Hc Hd.
    exists a, b, c, d. split; [reflexivity|].
    apply (letter_cases a 116) in Ha; [|lia].
    apply (letter_cases b 114) in Hb; [|lia].
    apply (letter_cases c 117) in Hc; [|lia].
    apply (letter_cases d 101) in Hd; [|lia].
    auto.
  - split; [discriminate|]. intros (a & b & c & d & -> & Ha & Hb & Hc & Hd).
    exfalso. apply N.
    destruct Ha as [->| ->], Hb as [->| ->], Hc as [->| ->], Hd as [->| ->];
      reflexivity.
Qed.

(** X14.  What counts as owned.  For a 2xx answer of the is-owned
    endpoint to a request whose parameters convert to strings, all three
    generations report [isOwned: true] exactly when the body text is the
    four letters of "true" in any mix of cases, and nothing more: the text
    is not trimmed, so "true" followed by a line break, like "1" or "yes",
    is reported as [isOwned: false], with [success: true] all the same. *)
Theorem is_owned_iff_spells_true
    (now : string) (fetch : fetcher) (query : req_query)
    (resp : fetch_response) (t u g : string) :
  missing (query "userId") = false -> missing (query "gamePassId") = false ->
  to_text (query "userId") = Ok u -> to_text (query "gamePassId") = Ok g ->
  (forall url init, fetch url init = Ok resp) ->
  ok resp = true -> text resp = Ok t ->
  let owned := fun rep => carries rep "isOwned" (VBool true) in
  let not_owned := fun rep => carries rep "isOwned" (VBool false) in
  let verdict := fun h => (replied h owned <-> spells_true t)
                          /\ (replied h not_owned <-> ~ spells_true t) in
  (isNaN u = false -> isNaN g = false ->
   verdict (Api.check_ownership now fetch query))
  /\ verdict (ApiRender.check_ownership fetch query)
  /\ verdict (Keyless.check_ownership fetch query).
Proof.
  intros Mu Mg Tu Tg Hf Hok Ht owned not_owned verdict.
  assert (forall h, replied h (check_outcome (Ok resp)) -> verdict h) as Hrep.
  { intros h (rep & Hh & Hout). unfold check_outcome in Hout.
    rewrite Hok, Ht in Hout. destruct Hout as (_ & _ & (f & Bf & Lf)).
    assert (forall b, replied h (fun rep => carries rep "isOwned" (VBool b))
                      <-> lowercase_is_true t = b) as Hb.
    { intros b. split.
      - intros (rep' & Hh' & (f' & Bf' & Lf')).
        rewrite Hh in Hh'. injection Hh' as <-.
        rewrite Bf in Bf'. injection Bf' as <-. rewrite Lf in Lf'.
        now injection Lf'.
      - intros <-. exists rep. split; [exact Hh|]. exists f. auto. }
    split.
    - unfold owned. rewrite Hb. apply lowercase_is_true_iff.
    - unfold not_owned. rewrite Hb, <- lowercase_is_true_iff.
      destruct (lowercase_is_true t); split; congruence. }
  split; [|split].
  - intros Nu Ng. now apply Hrep, (check_outcome_api now fetch query _ u g).
  - now apply Hrep, (check_outcome_render fetch query _ u g).
  - now apply Hrep, (check_outcome_keyless fetch query _ u g).
Qed.

Lemma is_owned_iff_spells_true_witness :
  let query := query_of [("userId", "1"); ("gamePassId", "2")] in
  replied (Keyless.check_ownership (fetch_always 200 "TrUe") query)
          (fun rep => carries rep "isOwned" (VBool true))
  <-> spells_true "TrUe".
Proof.
  intros query.
  apply (proj2 (proj2 (is_owned_iff_spells_true "" (fetch_always 200 "TrUe") query
                         {| fetch_status := 200; text := Ok "TrUe";
                            json := Throw (TypeError "Unexpected token") |}
                         "TrUe" "1" "2"
                         eq_refl eq_refl eq_refl eq_refl (fun _ _ => eq_refl)
                         eq_refl eq_refl))).
Defined.

(** A trailing line break makes the answer "not owned". *)
Example trailing_newline_is_not_owned :
  replied (Keyless.check_ownership
             (fetch_always 200 (String "t" (String "r" (String "u" (String "e"
                (String (ascii_of_nat 10) EmptyString))))))
             (query_of [("userId", "1"); ("gamePassId", "2")]))
          (fun rep => carries rep "isOwned" (VBool false)).
Proof. eexists. split; [reflexivity|]. eexists. split; reflexivity. Qed.

Ltac list_outcome_cases fetched :=
  destruct fetched as [resp|err]; cbn [bind fst snd];
  [ destruct (ok resp); cbn [negb];
    [ destruct (json resp); cbn [bind fst snd length]
    | destruct (text resp); cbn [bind fst snd length] ]
  | cbn [length] ];
  (split; [eexists; split; [reflexivity|repeat split; carried] | reflexivity]).

Ltac params_convert query Cv Cs Ct :=
  destruct (append_if_converts "passView" (query "passView") [] Cv) as [? ->];
  cbn [bind];
  match goal with
  | |- context [append_if "pageSize" ?v ?ps] =>
      destruct (append_if_converts "pageSize" v ps Cs) as [? ->]
  end;
  cbn [bind];
  match goal with
  | |- context [append_if "pageToken" ?v ?ps] =>
      destruct (append_if_converts "pageToken" v ps Ct) as [? ->]
  end;
  cbn [bind].

(** X15.  How /api/v1/list-gamepasses answers once the request is accepted
    (universeId present, numeric where that is checked, key configured
    where one is needed) and its parameters convert to strings, in all
    three generations: exactly one upstream call is made, and a 2xx answer
    with a JSON body gives 200 with that body, unchanged, under [data]; an
    answer outside 2xx is passed on with its own status and its body text
    under [robloxError]; a fetch that throws, a 2xx body that is not JSON,
    or a refusal whose body cannot be read, gives 500 with the error
    message. *)
Theorem list_gamepasses_outcome
    (env : string -> option string) (now : string) (fetch : fetcher)
    (query : req_query) (fetched : result fetch_response) (u : string) :
  missing (query "universeId") = false ->
  to_text (query "universeId") = Ok u ->
  converts (query "passView") -> converts (query "pageSize") ->
  converts (query "pageToken") ->
  (forall url init, fetch url init = fetched) ->
  (isNaN u = false ->
   unset (env "ROBLOX_API_KEY") = false ->
   replied (Api.list_gamepasses env now fetch query) (list_outcome fetched)
   /\ length (snd (Api.list_gamepasses env now fetch query)) = 1)
  /\ (unset (env "ROBLOX_API_KEY") = false ->
      replied (ApiRender.list_gamepasses env fetch query) (list_outcome fetched)
      /\ length (snd (ApiRender.list_gamepasses env fetch query)) = 1)
  /\ (replied (Keyless.list_gamepasses fetch query) (list_outcome fetched)
      /\ length (snd (Keyless.list_gamepasses fetch query)) = 1).
Proof.
  intros Mu Tu Cv Cs Ct Hf. unfold replied. split; [|split].
  - intros Nu Hk. unfold Api.list_gamepasses, list_outcome, isNaN_of.
    unfold Api.ROBLOX_API_KEY. rewrite Mu, Tu. cbn [bind]. rewrite Nu, Hk.
    params_convert query Cv Cs Ct. rewrite Hf.
    list_outcome_cases fetched.
  - intros Hk. unfold ApiRender.list_gamepasses, list_outcome.
    unfold ApiRender.ROBLOX_API_KEY. rewrite Mu, Hk.
    params_convert query Cv Cs Ct. rewrite Tu. cbn [bind]. rewrite Hf.
    list_outcome_cases fetched.
  - unfold Keyless.list_gamepasses, list_outcome. rewrite Mu.
    params_convert query Cv Cs Ct. rewrite Tu. cbn [bind]. rewrite Hf.
    list_outcome_cases fetched.
Qed.

Lemma list_gamepasses_outcome_witness :
  let env := fun _ : string => Some "key" in
  let query := query_of [("universeId", "7")] in
  replied (Api.list_gamepasses env "" (fetch_always 403 "denied") query)
    (fun rep => statusCode rep = 403
                /\ carries rep "success" (VBool false)
                /\ carries rep "robloxStatusCode" (VNum (of_nat 403))
                /\ carries rep "robloxError" (VStr "denied")).
Proof.
  intros env query.
  apply (proj1 (proj1 (list_gamepasses_outcome env "" (fetch_always 403 "denied") query
                         (Ok {| fetch_status := 403; text := Ok "denied";
                                json := Throw (TypeError "Unexpected token") |}) "7"
                         eq_refl eq_refl
                         (ex_intro _ "undefined" eq_refl)
                         (ex_intro _ "undefined" eq_refl)
                         (ex_intro _ "undefined" eq_refl)
                         (fun _ _ => eq_refl))
                  eq_refl eq_refl)).
Defined.

(** ** A parameter that cannot be converted *)




(** An object without an own [toString] converts, to a text that is not a
    number: src/index.js:55-112 answers it with 400. *)
Example plain_object_is_not_a_number :
  status_sent (Api.check_ownership "" (fetch_always 200 "true")
                 (with_param "userId" (PObj [("a", PStr "1")])
                    (query_of [("gamePassId", "2")]))) = Some 400.
Proof. reflexivity. Qed.

(** ** The runs of the dotenv generation *)

Lemma while_env_run env up userId fuel :
  forall results cursor pages trace res tr,
    WrapperEnv.while env fuel up userId results cursor pages trace = Some (res, tr) ->
    exists new, tr = (trace ++ new)%list /\ pages_run_env results new res.
Proof.
  induction fuel as [|fuel IH]; intros results cursor pages trace res tr.
  - rewrite while_env_0. destruct (Nat.ltb pages WrapperEnv.safetyPages); [discriminate|].
    intros [= <- <-]. exists []. rewrite app_nil_r. split; [reflexivity|constructor].
  - rewrite while_env_S. destruct (Nat.ltb pages WrapperEnv.safetyPages).
    2: { intros [= <- <-]. exists []. rewrite app_nil_r. split; [reflexivity|constructor]. }
    destruct (template _) as [u|err].
    2: { intros [= <- <-]. exists []. rewrite app_nil_r. split; [reflexivity|constructor]. }
    cbv zeta.
    set (c := {| sent := u; options := WrapperEnv.cloudRequestOptions env;
                 got := up (length trace) u (WrapperEnv.cloudRequestOptions env) |}).
    destruct (on_call_env results c) as [[results' next|results']|err] eqn:Hc.
    + intros Hrun. apply IH in Hrun. destruct Hrun as (new & -> & Hnew).
      exists (c :: new). rewrite <- app_assoc. split; [reflexivity|].
      eapply run_env_continue; eauto.
    + intros [= <- <-]. exists [c]. split; [reflexivity|]. now apply run_env_break.
    + intros [= <- <-]. exists [c]. split; [reflexivity|]. now apply run_env_throw.
Qed.

Lemma on_call_env_rejected results c err :
  settle (got c) = Throw err -> on_call_env results c = Throw err.
Proof. unfold on_call_env. now intros ->. Qed.

Lemma pages_run_env_rejected results new res :
  pages_run_env results new res ->
  forall k c err,
    nth_error new k = Some c -> settle (got c) = Throw err ->
    res = Throw err /\ length new = S k.
Proof.
  induction 1 as [results|results e|results c e Hc|results c results' Hc
                  |results c results' next rest res Hc Hrest IH];
    intros k c' err Hk Hrej.
  - destruct k; discriminate.
  - destruct k; discriminate.
  - destruct k as [|[|k]]; try discriminate. injection Hk as <-.
    rewrite (on_call_env_rejected _ _ _ Hrej) in Hc. injection Hc as <-. auto.
  - destruct k as [|[|k]]; try discriminate. injection Hk as <-.
    rewrite (on_call_env_rejected _ _ _ Hrej) in Hc. discriminate.
  - destruct k as [|k].
    + injection Hk as <-. rewrite (on_call_env_rejected _ _ _ Hrej) in Hc. discriminate.
    + destruct (IH k c' err Hk Hrej) as [-> Hlen]. simpl. auto.
Qed.

(** X16.  The dotenv generation of /api/created-gamepasses fails as a
    whole too.  When a call of its pagination is refused by upstream or
    gets no answer, whichever page it is, that call was the last one made
    and the reply is one failure with the fields [ok] and [error] only:
    the upstream status (500 without one), and as [error] the upstream
    body when it is truthy, else the error message.  Unlike the older
    generation it has no "request failed" fallback, so a failure without
    a message is reported with an empty [error]. *)
Theorem env_failed_page_discards_results
    (env : string -> option string) (fuel : nat) (up : upstream) (userId : string)
    (rep : reply) (trace : list call) (k : nat) (c : call) (err : error) :
  WrapperEnv.created_gamepasses env fuel up userId = Some (rep, trace) ->
  nth_error trace k = Some c ->
  settle (got c) = Throw err ->
  length trace = S k /\
  rep = match got c with
        | Answer r =>
            failure (if Nat.eqb (status r) 0 then 500 else status r)
                    (if truthy (data r) then data r
                     else VStr ("Request failed with status code " ++ dec (status r)))
        | NoAnswer msg => failure 500 (VStr msg)
        end.
Proof.
  unfold WrapperEnv.created_gamepasses.
  destruct (all_digits userId); cbv [negb].
  2: { intros [= <- <-] Hk. destruct k; discriminate. }
  destruct (WrapperEnv.while env fuel up userId [] (VStr "") 0 []) as [[res tr]|] eqn:Hrun;
    [|discriminate].
  apply while_env_run in Hrun. destruct Hrun as (new & -> & Hnew). simpl.
  intros Hrep Hk Hrej.
  assert (trace = new) as -> by (destruct res; injection Hrep; auto).
  destruct (pages_run_env_rejected _ _ _ Hnew _ _ _ Hk Hrej) as [-> Hlen].
  injection Hrep as <-. split; [exact Hlen|].
  apply settle_rejects in Hrej.
  unfold WrapperEnv.route_catch, failure, err_status, err_data, or_else.
  destruct (got c) as [r|msg].
  - destruct Hrej as [_ ->]. cbn [response message]. reflexivity.
  - subst err. cbn [response message]. reflexivity.
Qed.

Lemma env_failed_page_discards_results_witness :
  exists rep trace c,
    WrapperEnv.created_gamepasses no_env 50 fails_on_third "123" = Some (rep, trace)
    /\ nth_error trace 2 = Some c
    /\ length trace = 3
    /\ rep = failure 503 (VObj [("message", VStr "busy")]).
Proof.
  eexists _, _, _.
  split; [vm_compute; reflexivity|].
  split; [vm_compute; reflexivity|].
  exact (env_failed_page_discards_results no_env 50 fails_on_third "123" _ _ 2 _ _
           eq_refl eq_refl eq_refl).
Defined.






(** The dotenv generation has no case for a body that is itself an array:
    the last page of [three_pages] adds nothing. *)
Example env_drops_top_level_array :
  option_map fst (WrapperEnv.created_gamepasses no_env 50 three_pages "123")
  = Some (aggregated [num 0; num 7; num 1; num 7]).
Proof. vm_compute. reflexivity. Qed.
